(** * cleanup_topologies: removing features not referenced by topologies

    A shallow embedding of [ptt/cleanup_topologies.py] and the properties
    of its reference extraction, its two-level reachability, its
    collection filter and its command line.

    The pygplates objects the module consumes are embedded as plain data:
    a feature is its identifier and its ordered properties, a property
    value is a tagged union over the classes the visitor dispatches on,
    and times are the floats pygplates hands out.  Python sets of feature
    ids are [gset]s, the dictionary of topological lines is a [gmap]. *)

From Stdlib Require Import Floats.PrimFloat.
From stdpp Require Import gmap strings list fin_maps.
From Equations Require Import Equations.

Set Default Proof Using "Type".
Set Warnings "-register-all,-clear-no-such-hyp".

(** ** The pygplates data model *)

(** Feature identifiers are opaque hashable tokens. *)
Abbreviation FeatureId := string (only parsing).

(** A time period is the pair [(begin_time, end_time)] of floats. *)
Abbreviation TimePeriod := (float * float)%type (only parsing).

Module pygplates.

(** The property value classes the module compares against, as class
    objects ([get_value_type()] returns one, [topology_type] holds one). *)
Inductive PropertyValueType :=
| GpmlTopologicalLine
| GpmlTopologicalPolygon
| GpmlTopologicalNetwork
| GpmlConstantValue
| GpmlPiecewiseAggregation
| GmlTimePeriod
| OtherPropertyValue.

#[global] Instance PropertyValueType_eq_dec : EqDecision PropertyValueType.
Proof. solve_decision. Defined.

(** A time window of a piecewise aggregation, over the type of the
    property values it carries. *)
Record GpmlTimeWindow (V : Type) := TimeWindow {
  get_begin_time : float;
  get_end_time : float;
  get_value : V }.

Arguments TimeWindow {V} _ _ _.
Arguments get_begin_time {V} _.
Arguments get_end_time {V} _.
Arguments get_value {V} _.

(** Property values.  A topological section is embedded as the feature id
    of its property delegate ([section.get_property_delegate()
    .get_feature_id()]), a network interior as the feature id it holds
    ([interior.get_feature_id()]).  [TimePeriodValue] is a [GmlTimePeriod]
    (the value of a feature's valid-time property); the visitor has no
    method for it, nor for [OtherValue]. *)
Inductive PropertyValue :=
| ConstantValue (value : PropertyValue)
| PiecewiseAggregation (value_type : PropertyValueType)
                       (time_windows : list (GpmlTimeWindow PropertyValue))
| TopologicalLine (sections : list FeatureId)
| TopologicalPolygon (exterior_sections : list FeatureId)
| TopologicalNetwork (boundary_sections : list FeatureId)
                     (interiors : list FeatureId)
| TimePeriodValue (begin_time end_time : float)
| OtherValue.

Record Property := {
  get_name : string;
  get_time_dependent_value : PropertyValue }.

(** A feature: its identifier and its properties in declaration order
    (what [for property in feature] iterates over). *)
Record Feature := {
  get_feature_id : FeatureId;
  properties : list Property }.

End pygplates.

Import pygplates.

(** ** [_TopologicalReference] *)

Record TopologicalReference := {
  get_feature : Feature;
  get_references : list (TimePeriod * gset FeatureId) }.

(** [_TopologicalReference.get_referenced_feature_ids] *)
Definition get_referenced_feature_ids (self : TopologicalReference)
  : gset FeatureId :=
  foldl (λ set_referenced_feature_ids reference,
           set_referenced_feature_ids ∪ reference.2)
        ∅ (get_references self).

(** ** [_TopologicalReferenceVisitor] *)

(** The visitor's instance fields. *)
Record Visitor := {
  topology_type : option PropertyValueType;
  references : list (TimePeriod * gset FeatureId);
  current_time_period : TimePeriod }.

Definition ALL_TIME : TimePeriod := (infinity, neg_infinity).

Definition set_current_time_period (time_period : TimePeriod) (self : Visitor)
  : Visitor :=
  {| topology_type := topology_type self;
     references := references self;
     current_time_period := time_period |}.

(** [for x in xs: s.add(x)] *)
Definition add_all (xs : list FeatureId) (s : gset FeatureId) : gset FeatureId :=
  foldl (λ acc x, acc ∪ {[ x ]}) s xs.

(** Assigning the topology type and appending the reference, the common
    tail of the three topological visit methods. *)
Definition record_reference (type : PropertyValueType)
    (set_referenced_feature_ids : gset FeatureId) (self : Visitor) : Visitor :=
  {| topology_type := Some type;
     references := references self ++
                   [(current_time_period self, set_referenced_feature_ids)];
     current_time_period := current_time_period self |}.

Definition visit_gpml_topological_line (sections : list FeatureId)
    (self : Visitor) : Visitor :=
  record_reference GpmlTopologicalLine (add_all sections ∅) self.

Definition visit_gpml_topological_polygon (exterior_sections : list FeatureId)
    (self : Visitor) : Visitor :=
  record_reference GpmlTopologicalPolygon (add_all exterior_sections ∅) self.

Definition visit_gpml_topological_network
    (boundary_sections interiors : list FeatureId) (self : Visitor) : Visitor :=
  record_reference GpmlTopologicalNetwork
    (add_all interiors (add_all boundary_sections ∅)) self.

(** The test guarding [visit_gpml_piecewise_aggregation]. *)
Definition is_topological_type (value_type : PropertyValueType) : bool :=
  bool_decide (value_type = GpmlTopologicalLine ∨
               value_type = GpmlTopologicalPolygon ∨
               value_type = GpmlTopologicalNetwork).

(** [property_value.accept_visitor(self)]: the dispatch on the class of
    the property value, with the body of the visit method in each branch.
    [visit_gpml_constant_value] visits the nested value.
    [visit_gpml_piecewise_aggregation] visits the sole window under the
    time period in force when there is exactly one window
    ([len(...) == 1], matched here as a one-element list), and otherwise
    visits every window with [current_time_period] set to the window's
    period and restored to [ALL_TIME] afterwards. *)
Fixpoint accept_visitor (property_value : PropertyValue) (self : Visitor)
  {struct property_value} : Visitor :=
  match property_value with
  | ConstantValue value => accept_visitor value self
  | PiecewiseAggregation value_type time_windows =>
      if is_topological_type value_type then
        match time_windows with
        | [gpml_time_window] =>
            accept_visitor (get_value gpml_time_window) self
        | _ =>
            (fix each_window (windows : list (GpmlTimeWindow PropertyValue))
                 (self : Visitor) {struct windows} : Visitor :=
               match windows with
               | [] => self
               | gpml_time_window :: windows =>
                   let self :=
                     set_current_time_period
                       (get_begin_time gpml_time_window,
                        get_end_time gpml_time_window) self in
                   let self :=
                     accept_visitor (get_value gpml_time_window) self in
                   let self := set_current_time_period ALL_TIME self in
                   each_window windows self
               end) time_windows self
        end
      else self
  | TopologicalLine sections => visit_gpml_topological_line sections self
  | TopologicalPolygon exterior_sections =>
      visit_gpml_topological_polygon exterior_sections self
  | TopologicalNetwork boundary_sections interiors =>
      visit_gpml_topological_network boundary_sections interiors self
  | TimePeriodValue _ _ => self
  | OtherValue => self
  end.

(** The loop of [visit_feature] over the properties, leaving at the first
    property after which a topology type is set. *)
Fixpoint visit_properties (props : list Property) (self : Visitor) : Visitor :=
  match props with
  | [] => self
  | property :: props =>
      let property_value := get_time_dependent_value property in
      let self := accept_visitor property_value self in
      match topology_type self with
      | Some _ => self
      | None => visit_properties props self
      end
  end.

(** The fields as [visit_feature] resets them on entry. *)
Definition fresh_visitor : Visitor :=
  {| topology_type := None; references := []; current_time_period := ALL_TIME |}.

Definition visit_feature (feature : Feature)
  : option PropertyValueType * TopologicalReference :=
  let self := visit_properties (properties feature) fresh_visitor in
  (topology_type self,
   {| get_feature := feature; get_references := references self |}).

(** ** [remove_features_not_referenced_by_topologies] *)

(** What the first pass over the features gathers. *)
Record Topologies := {
  set_feature_ids_of_topological_polygons_and_networks : gset FeatureId;
  topological_polygon_and_network_references : list TopologicalReference;
  topological_line_references : gmap FeatureId TopologicalReference }.

Definition no_topologies : Topologies :=
  {| set_feature_ids_of_topological_polygons_and_networks := ∅;
     topological_polygon_and_network_references := [];
     topological_line_references := ∅ |}.

(** The body of the first pass for one feature. *)
Definition find_topology (found : Topologies) (feature : Feature) : Topologies :=
  let '(topology_type, topological_reference) := visit_feature feature in
  match topology_type with
  | Some GpmlTopologicalLine =>
      {| set_feature_ids_of_topological_polygons_and_networks :=
           set_feature_ids_of_topological_polygons_and_networks found;
         topological_polygon_and_network_references :=
           topological_polygon_and_network_references found;
         topological_line_references :=
           <[get_feature_id feature := topological_reference]>
             (topological_line_references found) |}
  | Some GpmlTopologicalPolygon | Some GpmlTopologicalNetwork =>
      {| set_feature_ids_of_topological_polygons_and_networks :=
           set_feature_ids_of_topological_polygons_and_networks found
           ∪ {[ get_feature_id feature ]};
         topological_polygon_and_network_references :=
           topological_polygon_and_network_references found
           ++ [topological_reference];
         topological_line_references := topological_line_references found |}
  | _ => found
  end.

(** The first pass: every feature of every collection, in order. *)
Definition find_topologies (feature_collections : list (list Feature))
  : Topologies :=
  foldl (λ found feature_collection,
           foldl find_topology found feature_collection)
        no_topologies feature_collections.

(** The two sets the second pass fills. *)
Record Referenced := {
  set_feature_ids_referenced_by_topological_polygons_and_networks
    : gset FeatureId;
  set_feature_ids_referenced_by_topological_lines_referenced_by_topological_polygons_and_networks
    : gset FeatureId }.

Definition nothing_referenced : Referenced :=
  {| set_feature_ids_referenced_by_topological_polygons_and_networks := ∅;
     set_feature_ids_referenced_by_topological_lines_referenced_by_topological_polygons_and_networks := ∅ |}.

(** The innermost loop body: a referenced id that is the key of a
    topological line brings in all the ids that line references.  Any
    [_TopologicalReference] object is truthy, so the test is on the key
    being present. *)
Definition add_referenced_by_line
    (line_references : gmap FeatureId TopologicalReference)
    (by_lines : gset FeatureId) (referenced_feature_id : FeatureId)
  : gset FeatureId :=
  match line_references !! referenced_feature_id with
  | Some topological_line_reference =>
      by_lines ∪ get_referenced_feature_ids topological_line_reference
  | None => by_lines
  end.

(** The loop body for one [(time_period, feature_ids)] entry of a polygon
    or network.  The ids of the set are iterated in the order [elements]
    lists them. *)
Definition add_time_period_references
    (line_references : gmap FeatureId TopologicalReference)
    (found : Referenced) (reference : TimePeriod * gset FeatureId)
  : Referenced :=
  let feature_ids_referenced_in_time_period := reference.2 in
  {| set_feature_ids_referenced_by_topological_polygons_and_networks :=
       set_feature_ids_referenced_by_topological_polygons_and_networks found
       ∪ feature_ids_referenced_in_time_period;
     set_feature_ids_referenced_by_topological_lines_referenced_by_topological_polygons_and_networks :=
       foldl (add_referenced_by_line line_references)
         (set_feature_ids_referenced_by_topological_lines_referenced_by_topological_polygons_and_networks found)
         (elements feature_ids_referenced_in_time_period) |}.

(** The second pass, over the references of the polygons and networks. *)
Definition find_referenced (found : Topologies) : Referenced :=
  foldl (λ referenced topological_polygon_and_network_reference,
           foldl (add_time_period_references
                    (topological_line_references found))
                 referenced
                 (get_references topological_polygon_and_network_reference))
        nothing_referenced
        (topological_polygon_and_network_references found).

Definition feature_ids_to_keep (feature_collections : list (list Feature))
  : gset FeatureId :=
  let found := find_topologies feature_collections in
  let referenced := find_referenced found in
  set_feature_ids_of_topological_polygons_and_networks found
  ∪ set_feature_ids_referenced_by_topological_polygons_and_networks referenced
  ∪ set_feature_ids_referenced_by_topological_lines_referenced_by_topological_polygons_and_networks referenced.

(** The [while] loop that deletes in place: [feature_collection] is the
    list as it stands, [feature_index] the index.  A kept feature moves
    the index on; a deleted one leaves it where it is (decrement, then
    increment).  It ends when the index reaches the length. *)
Equations? remove_unkept (keep : gset FeatureId)
    (feature_collection : list Feature) (feature_index : nat)
  : list Feature
  by wf (length feature_collection - feature_index) lt :=
remove_unkept keep feature_collection feature_index
  with Logic.inspect (feature_collection !! feature_index) := {
  | exist _ None _ => feature_collection
  | exist _ (Some feature) _ =>
      if decide (get_feature_id feature ∈ keep)
      then remove_unkept keep feature_collection (S feature_index)
      else remove_unkept keep (delete feature_index feature_collection)
             feature_index }.
Proof.
  - apply lookup_lt_Some in e. lia.
  - pose proof (lookup_lt_Some _ _ _ e).
    rewrite length_delete; [lia | eauto].
Qed.

(** The flag [restrict_referenced_feature_time_periods] is a parameter the
    body never reads. *)
Definition remove_features_not_referenced_by_topologies
    (feature_collections : list (list Feature))
    (restrict_referenced_feature_time_periods : bool)
  : list (list Feature) :=
  let feature_ids_to_keep := feature_ids_to_keep feature_collections in
  map (λ feature_collection,
         remove_unkept feature_ids_to_keep feature_collection 0)
      feature_collections.

(** ** The command line: [main] *)

(** The statements of [main] run on the files: each either completes with
    a value or raises, and leaves the files in some state. *)
Definition IO (Files A : Type) : Type := Files → option A * Files.

#[global] Instance IO_ret {Files} : MRet (IO Files) :=
  λ A a files, (Some a, files).

#[global] Instance IO_bind {Files} : MBind (IO Files) :=
  λ A B k m files,
    match m files with
    | (Some a, files) => k a files
    | (None, files) => (None, files)
    end.

(** [l[i]], which raises [IndexError] out of range. *)
Definition getitem {Files A} (l : list A) (i : nat) : IO Files A :=
  λ files, (l !! i, files).

(** What [main] takes from its environment: [os.path.split] and
    [os.path.join]; the features pygplates reads from a file, if it can
    read it; and [feature_collection.write(filename)], which writes a
    file or raises. *)
Class Environment (Files : Type) := {
  os_path_split : string → string * string;
  os_path_join : string → string → string;
  features_of_file : string → Files → option (list Feature);
  write : list Feature → string → IO Files () }.

(** The parsed command line: [-o] is optional and defaults to [None]. *)
Record Args := {
  output_filename_prefix : option string;
  input_filenames : list string }.

Section main.

Context {Files : Type} `{!Environment Files}.

(** [pygplates.FeatureCollection(filename)]: the features of the file, or
    an exception; the files stay as they are. *)
Definition FeatureCollection (filename : string) : IO Files (list Feature) :=
  λ files, (features_of_file filename files, files).

(** The name of the file an input file's features are written to.  The
    prefix is tested for truth: [None] and the empty string are both
    false. *)
Definition output_filename (args : Args) (input_filename : string) : string :=
  match output_filename_prefix args with
  | Some prefix =>
      if decide (prefix = "") then input_filename
      else
        let '(dir, file_basename) := os_path_split input_filename in
        os_path_join dir (prefix +:+ file_basename)
  | None => input_filename
  end.

(** The loop [for feature_collection_index in range(...)]. *)
Fixpoint write_feature_collections (args : Args)
    (output_feature_collections : list (list Feature)) (indices : list nat)
  : IO Files () :=
  match indices with
  | [] => mret ()
  | feature_collection_index :: indices =>
      output_feature_collection ←
        getitem output_feature_collections feature_collection_index;
      input_filename ← getitem (input_filenames args) feature_collection_index;
      write output_feature_collection (output_filename args input_filename);;
      write_feature_collections args output_feature_collections indices
  end.

Definition main (args : Args) : IO Files () :=
  input_feature_collections ←
    mapM FeatureCollection (input_filenames args);
  let output_feature_collections :=
    remove_features_not_referenced_by_topologies
      input_feature_collections false in
  write_feature_collections args output_feature_collections
    (seq 0 (length output_feature_collections)).

(** The status the process exits with: [main] ends in [sys.exit(0)], an
    exception it lets through ends in [sys.exit(1)]. *)
Definition exit_status (args : Args) (files : Files) : nat :=
  match (main args files).1 with
  | Some _ => 0
  | None => 1
  end.

(** Writing the given collections under the given names, one after the
    other. *)
Fixpoint write_all (named : list (string * list Feature)) : IO Files () :=
  match named with
  | [] => mret ()
  | (filename, feature_collection) :: named =>
      write feature_collection filename;; write_all named
  end.

(** What the theorems on several runs ask of the files: a file that was
    written reads back as the features written, and writing a file leaves
    what the other files read as. *)
Definition written_files_read_back : Prop :=
  ∀ feature_collection filename files files',
    write feature_collection filename files = (Some (), files') →
    features_of_file filename files' = Some feature_collection.

Definition writing_touches_one_file : Prop :=
  ∀ feature_collection filename files files' other,
    write feature_collection filename files = (Some (), files') →
    other ≠ filename →
    features_of_file other files' = features_of_file other files.

End main.

(** ** Vocabulary of the specification *)

(** The topology kind the extractor assigns to a feature, and the
    reference it returns. *)
Definition topology_kind (feature : Feature) : option PropertyValueType :=
  (visit_feature feature).1.

Definition topological_reference (feature : Feature) : TopologicalReference :=
  (visit_feature feature).2.

Definition is_polygon_or_network (feature : Feature) : Prop :=
  topology_kind feature = Some GpmlTopologicalPolygon ∨
  topology_kind feature = Some GpmlTopologicalNetwork.

Definition is_line (feature : Feature) : Prop :=
  topology_kind feature = Some GpmlTopologicalLine.

#[global] Instance is_polygon_or_network_dec f : Decision (is_polygon_or_network f).
Proof. unfold is_polygon_or_network. apply _. Defined.

#[global] Instance is_line_dec f : Decision (is_line f).
Proof. unfold is_line. apply _. Defined.

(** The feature ids a feature references, over all its time windows. *)
Definition referenced_ids (feature : Feature) : gset FeatureId :=
  get_referenced_feature_ids (topological_reference feature).

(** Every feature of the input, in input order. *)
Definition all_features (feature_collections : list (list Feature))
  : list Feature :=
  concat feature_collections.

(** The keep-set as the specification words it:
    {ids of Polygon/Network features} ∪ {ids they reference directly}
    ∪ {ids referenced by some Line whose id is directly referenced}. *)
Definition polygon_and_network_ids (fcs : list (list Feature))
  : gset FeatureId :=
  list_to_set (get_feature_id <$> filter is_polygon_or_network (all_features fcs)).

Definition directly_referenced_ids (fcs : list (list Feature))
  : gset FeatureId :=
  ⋃ (referenced_ids <$> filter is_polygon_or_network (all_features fcs)).

Definition ids_referenced_via_lines (fcs : list (list Feature))
  : gset FeatureId :=
  ⋃ (referenced_ids <$>
       filter (λ f, is_line f ∧ get_feature_id f ∈ directly_referenced_ids fcs)
              (all_features fcs)).

Definition two_hop_keep_set (fcs : list (list Feature)) : gset FeatureId :=
  polygon_and_network_ids fcs ∪ directly_referenced_ids fcs
  ∪ ids_referenced_via_lines fcs.

(** [feature] stands in the [i]-th input collection. *)
Definition in_collection (fcs : list (list Feature)) (i : nat)
    (feature : Feature) : Prop :=
  ∃ fc, fcs !! i = Some fc ∧ feature ∈ fc.

(** [feature] stands in the [i]-th returned collection. *)
Definition survives (fcs : list (list Feature)) (flag : bool) (i : nat)
    (feature : Feature) : Prop :=
  ∃ fc, remove_features_not_referenced_by_topologies fcs flag !! i = Some fc
        ∧ feature ∈ fc.

(** Feature identifiers identify: no two features of the input share one. *)
Definition unique_feature_ids (fcs : list (list Feature)) : Prop :=
  NoDup (get_feature_id <$> all_features fcs).

(** The same, asked of the topological lines only. *)
Definition unique_line_ids (fcs : list (list Feature)) : Prop :=
  NoDup (get_feature_id <$> filter is_line (all_features fcs)).

(** The last Line feature of the input, in input order, that carries the
    feature id [k]. *)
Definition last_line_with_id (fcs : list (list Feature)) (k : FeatureId)
  : option Feature :=
  last (filter (λ f, is_line f ∧ get_feature_id f = k) (all_features fcs)).





(** The set of feature ids a topological value names through its sections
    (and interiors), as the three topological visit methods collect it. *)
Definition section_feature_ids (property_value : PropertyValue)
  : gset FeatureId :=
  match property_value with
  | TopologicalLine sections => add_all sections ∅
  | TopologicalPolygon exterior_sections => add_all exterior_sections ∅
  | TopologicalNetwork boundary_sections interiors =>
      add_all interiors (add_all boundary_sections ∅)
  | _ => ∅
  end.

(** A value that is itself a topological line, polygon or network. *)
Definition is_topological_value (property_value : PropertyValue) : bool :=
  match property_value with
  | TopologicalLine _ | TopologicalPolygon _ | TopologicalNetwork _ _ => true
  | _ => false
  end.

(** A property is topological when visiting it, on a freshly reset
    visitor, assigns a topology type. *)
Definition is_topological_property (property : Property) : Prop :=
  is_Some (topology_type
             (accept_visitor (get_time_dependent_value property) fresh_visitor)).

(** ** Auxiliary notions of the proofs *)

Local Abbreviation polygons_and_networks :=
  set_feature_ids_of_topological_polygons_and_networks.
Local Abbreviation polygon_and_network_references :=
  topological_polygon_and_network_references.
Local Abbreviation line_references := topological_line_references.
Local Abbreviation referenced_directly :=
  set_feature_ids_referenced_by_topological_polygons_and_networks.
Local Abbreviation referenced_by_lines :=
  set_feature_ids_referenced_by_topological_lines_referenced_by_topological_polygons_and_networks.

(** The first pass over a flat list of features. *)
Definition topologies_of (features : list Feature) : Topologies :=
  foldl find_topology no_topologies features.

(** One round of the loop of [visit_gpml_piecewise_aggregation]. *)
Definition visit_time_window (self : Visitor)
    (gpml_time_window : GpmlTimeWindow PropertyValue) : Visitor :=
  set_current_time_period ALL_TIME
    (accept_visitor (get_value gpml_time_window)
       (set_current_time_period
          (get_begin_time gpml_time_window, get_end_time gpml_time_window)
          self)).

(** Once assigned, the topology type stays assigned; and a visit after
    which none is assigned has left the visitor as it was, up to the
    restored [ALL_TIME]. *)
Definition inert (property_value : PropertyValue) : Prop :=
  ∀ self,
    (is_Some (topology_type self) →
     is_Some (topology_type (accept_visitor property_value self)))
    ∧ (topology_type (accept_visitor property_value self) = None →
       accept_visitor property_value self = self
       ∨ accept_visitor property_value self
         = set_current_time_period ALL_TIME self).



(** Features that the two passes cannot tell apart. *)
Definition same_topology (f g : Feature) : Prop :=
  get_feature_id f = get_feature_id g
  ∧ topology_kind f = topology_kind g
  ∧ referenced_ids f = referenced_ids g.

(** The dictionaries of lines built from indistinguishable inputs hold,
    key by key, references to the same ids. *)
Definition lines_agree (a b : Topologies) : Prop :=
  ∀ k : string,
    option_Forall2
      (λ r r', get_referenced_feature_ids r = get_referenced_feature_ids r')
      (topological_line_references a !! k) (topological_line_references b !! k).

(** Deciding a closed proposition by evaluation. *)
Ltac by_evaluation := apply (bool_decide_unpack _); vm_compute; exact I.

(** * Concrete inputs *)

Module Scenario.

(** A feature whose one property holds [value]. *)
Definition topological (id : FeatureId) (value : PropertyValue) : Feature :=
  {| get_feature_id := id;
     properties := [ {| get_name := "gpml:topology";
                        get_time_dependent_value := value |} ] |}.

(** A regular feature, valid from 100 Ma to the present. *)
Definition regular (id : FeatureId) : Feature :=
  {| get_feature_id := id;
     properties := [ {| get_name := "gml:validTime";
                        get_time_dependent_value := TimePeriodValue 100 0 |} ] |}.

(** Collection A holds polygon P, which references line L and R1;
    collection B holds L, which references R2 and R3, the unreferenced R4
    and the unreferenced line L2. *)
Definition P : Feature :=
  topological "P" (ConstantValue (TopologicalPolygon ["L"; "R1"])).
Definition L : Feature :=
  topological "L" (ConstantValue (TopologicalLine ["R2"; "R3"])).
Definition L2 : Feature :=
  topological "L2" (ConstantValue (TopologicalLine ["R4"])).

Definition collections : list (list Feature) :=
  [ [P; regular "R1"];
    [L; regular "R2"; regular "R3"; regular "R4"; L2] ].

(** Two lines carrying the same feature id, the polygon referencing it. *)
Definition first_L : Feature :=
  topological "L" (ConstantValue (TopologicalLine ["R1"])).
Definition second_L : Feature :=
  topological "L" (ConstantValue (TopologicalLine ["R2"])).

Definition duplicate_lines : list (list Feature) :=
  [ [ topological "P" (ConstantValue (TopologicalPolygon ["L"]));
      first_L; second_L; regular "R1"; regular "R2" ] ].

(** A polygon referencing line L1, which references line L2. *)
Definition inner_line : Feature :=
  topological "L2" (ConstantValue (TopologicalLine ["R"])).

Definition line_chain : list (list Feature) :=
  [ [ topological "P" (ConstantValue (TopologicalPolygon ["L1"]));
      topological "L1" (ConstantValue (TopologicalLine ["L2"]));
      inner_line; regular "R" ] ].

(** A polygon whose boundary changes with time: it references R1 from
    [older] Ma to 5 Ma and R2 from 5 Ma to the present. *)
Definition changing_polygon (older : float) : Feature :=
  topological "P"
    (PiecewiseAggregation GpmlTopologicalPolygon
       [ TimeWindow older 5 (TopologicalPolygon ["R1"]);
         TimeWindow 5 0 (TopologicalPolygon ["R2"]) ]).

Definition time_dependent (older : float) : list (list Feature) :=
  [ [changing_polygon older; regular "R1"; regular "R2"; regular "R3"] ].

(** Files held in a map from their names to their features: a name reads
    as what was last written under it, and every write succeeds.  The
    names have no directory part. *)
Definition files_in_a_map : Environment (gmap string (list Feature)) := {|
  os_path_split input_filename := ("", input_filename);
  os_path_join dir file_basename :=
    if decide (dir = "") then file_basename
    else dir +:+ "/" +:+ file_basename;
  features_of_file filename files := files !! filename;
  write feature_collection filename :=
    λ files, (Some (), <[filename := feature_collection]> files) |}.

(** The two collections of [collections], each in a file, beside a file
    the command line does not name. *)
Definition files : gmap string (list Feature) :=
  {[ "a.gpml" := [P; regular "R1"];
     "b.gpml" := [L; regular "R2"; regular "R3"; regular "R4"; L2];
     "c.gpml" := [regular "R5"] ]}.

Definition in_place : Args :=
  {| output_filename_prefix := None;
     input_filenames := ["a.gpml"; "b.gpml"] |}.

Definition prefixed : Args :=
  {| output_filename_prefix := Some "clean_";
     input_filenames := ["a.gpml"; "b.gpml"] |}.

End Scenario.

(** * Properties *)

(** ** The deleting loop is a filter *)

Lemma remove_unkept_filter keep fc i :
  remove_unkept keep fc i
  = take i fc ++ filter (λ f, get_feature_id f ∈ keep) (drop i fc).
Proof.
  funelim (remove_unkept keep fc i).
  - pose proof (lookup_lt_Some _ _ _ e) as Hlt.
    rewrite (drop_S _ _ _ e), filter_cons.
    destruct (decide (get_feature_id feature ∈ keep)) as [Hin|Hout].
    + rewrite H by done. rewrite (take_S_r _ _ _ e), <- app_assoc. done.
    + rewrite H0 by done. rewrite delete_take_drop.
      rewrite take_app_length' by (rewrite length_take; lia).
      rewrite drop_app_length' by (rewrite length_take; lia). done.
  - pose proof (lookup_ge_None_1 _ _ e) as Hge.
    rewrite take_ge, drop_ge by done. by rewrite app_nil_r.
Qed.

Lemma remove_features_filter fcs flag :
  remove_features_not_referenced_by_topologies fcs flag
  = map (filter (λ f, get_feature_id f ∈ feature_ids_to_keep fcs)) fcs.
Proof.
  unfold remove_features_not_referenced_by_topologies.
  apply map_ext. intros fc. by rewrite remove_unkept_filter.
Qed.

(** ** Kinds exclude each other *)

Lemma line_not_polygon_or_network f : is_line f → ¬ is_polygon_or_network f.
Proof. unfold is_line, is_polygon_or_network. intros -> [?|?]; discriminate. Qed.

(** ** Loops that accumulate a union *)

Lemma elem_of_foldl_union {A} (g : A → gset string) (l : list A)
    (acc : gset string) (x : string) :
  x ∈ foldl (λ s a, s ∪ g a) acc l ↔ x ∈ acc ∨ ∃ a, a ∈ l ∧ x ∈ g a.
Proof.
  revert acc. induction l as [|a l IH]; intros acc; simpl.
  - split; [by left | intros [?|(a & Ha & _)]; [done | by apply elem_of_nil in Ha]].
  - rewrite IH, elem_of_union. split.
    + intros [[?|?]|(b & Hb & ?)]; [by left | right; exists a | right; exists b];
        (split; [set_solver | done]).
    + intros [?|(b & Hb & ?)]; [by left; left |].
      apply elem_of_cons in Hb as [->|Hb]; [by left; right | right; eauto].
Qed.

Lemma elem_of_add_all xs s (x : string) : x ∈ add_all xs s ↔ x ∈ s ∨ x ∈ xs.
Proof.
  unfold add_all. rewrite (elem_of_foldl_union (λ a, {[ a ]})). set_solver.
Qed.

Lemma elem_of_get_referenced_feature_ids r (x : string) :
  x ∈ get_referenced_feature_ids r
  ↔ ∃ reference, reference ∈ get_references r ∧ x ∈ reference.2.
Proof.
  unfold get_referenced_feature_ids.
  rewrite (elem_of_foldl_union snd). set_solver.
Qed.

(** ** The first pass, feature by feature *)

Lemma foldl_concat {A B} (f : A → B → A) (a : A) (ls : list (list B)) :
  foldl (λ a l, foldl f a l) a ls = foldl f a (concat ls).
Proof.
  revert a. induction ls as [|l ls IH]; intros a; simpl; [done|].
  by rewrite foldl_app, IH.
Qed.

Lemma find_topologies_flat fcs :
  find_topologies fcs = topologies_of (all_features fcs).
Proof. apply foldl_concat. Qed.

Lemma topologies_of_snoc l f :
  topologies_of (l ++ [f]) = find_topology (topologies_of l) f.
Proof. unfold topologies_of. by rewrite foldl_app. Qed.

Lemma find_topology_polygons found f :
  polygons_and_networks (find_topology found f)
  = if decide (is_polygon_or_network f)
    then polygons_and_networks found ∪ {[ get_feature_id f ]}
    else polygons_and_networks found.
Proof.
  unfold find_topology.
  case_decide as H; unfold is_polygon_or_network, topology_kind in H;
    destruct (visit_feature f) as [[[]|] r]; simpl in *; try done;
    naive_solver.
Qed.

Lemma find_topology_references found f :
  polygon_and_network_references (find_topology found f)
  = if decide (is_polygon_or_network f)
    then polygon_and_network_references found ++ [topological_reference f]
    else polygon_and_network_references found.
Proof.
  unfold find_topology, topological_reference.
  case_decide as H; unfold is_polygon_or_network, topology_kind in H;
    destruct (visit_feature f) as [[[]|] r]; simpl in *; try done;
    naive_solver.
Qed.

Lemma find_topology_lines found f :
  line_references (find_topology found f)
  = if decide (is_line f)
    then <[get_feature_id f := topological_reference f]> (line_references found)
    else line_references found.
Proof.
  unfold find_topology, topological_reference.
  case_decide as H; unfold is_line, topology_kind in H;
    destruct (visit_feature f) as [[[]|] r]; simpl in *; try done;
    naive_solver.
Qed.

Lemma topologies_of_polygons l (x : string) :
  x ∈ polygons_and_networks (topologies_of l)
  ↔ ∃ f, f ∈ l ∧ is_polygon_or_network f ∧ get_feature_id f = x.
Proof.
  induction l as [|f l IH] using rev_ind.
  - split; [set_solver | intros (f & Hf & _); by apply elem_of_nil in Hf].
  - rewrite topologies_of_snoc, find_topology_polygons.
    setoid_rewrite elem_of_app. setoid_rewrite list_elem_of_singleton.
    case_decide; [rewrite elem_of_union, elem_of_singleton|];
      rewrite IH; naive_solver.
Qed.

Lemma topologies_of_references l :
  polygon_and_network_references (topologies_of l)
  = topological_reference <$> filter is_polygon_or_network l.
Proof.
  induction l as [|f l IH] using rev_ind; [done|].
  rewrite topologies_of_snoc, find_topology_references, filter_app, fmap_app, IH.
  rewrite filter_cons, filter_nil. by case_decide; [|rewrite app_nil_r].
Qed.

(** A key of the dictionary of lines is the id of a line of the input,
    and holds that line's reference. *)
Lemma topologies_of_lines_Some l (k : string) r :
  line_references (topologies_of l) !! k = Some r →
  ∃ f, f ∈ l ∧ is_line f ∧ get_feature_id f = k ∧ topological_reference f = r.
Proof.
  induction l as [|f l IH] using rev_ind.
  - cbn. by rewrite lookup_empty.
  - rewrite topologies_of_snoc, find_topology_lines.
    setoid_rewrite elem_of_app. setoid_rewrite list_elem_of_singleton.
    case_decide as Hf.
    + destruct (decide (get_feature_id f = k)) as [<-|Hne].
      * rewrite lookup_insert_eq. intros [= <-]. exists f. naive_solver.
      * rewrite lookup_insert_ne by done. intros H.
        destruct (IH H) as (g & ? & ?). exists g. naive_solver.
    + intros H. destruct (IH H) as (g & ? & ?). exists g. naive_solver.
Qed.

(** When no two lines share an id, the dictionary holds every line. *)
Lemma topologies_of_lines_unique l f :
  NoDup (get_feature_id <$> filter is_line l) →
  f ∈ l → is_line f →
  line_references (topologies_of l) !! get_feature_id f
  = Some (topological_reference f).
Proof.
  induction l as [|g l IH] using rev_ind; intros Hnd Hin Hline.
  - by apply elem_of_nil in Hin.
  - rewrite topologies_of_snoc, find_topology_lines.
    rewrite filter_app, fmap_app, filter_cons, filter_nil in Hnd.
    apply elem_of_app in Hin as [Hin|Hin].
    + case_decide as Hg.
      * simpl in Hnd. apply NoDup_app in Hnd as (Hnd & Hdisj & _).
        rewrite lookup_insert_ne; [by apply IH|].
        intros Heq. apply (Hdisj (get_feature_id f)); [|set_solver].
        apply list_elem_of_fmap. exists f. split; [done|].
        by apply list_elem_of_filter.
      * rewrite app_nil_r in Hnd. by apply IH.
    + apply list_elem_of_singleton in Hin as ->.
      rewrite decide_True by done. by rewrite lookup_insert_eq.
Qed.

(** ** The second pass *)

Lemma elem_of_add_referenced_by_lines m ks s (x : string) :
  x ∈ foldl (add_referenced_by_line m) s ks
  ↔ x ∈ s ∨ ∃ k r, k ∈ ks ∧ m !! k = Some r ∧ x ∈ get_referenced_feature_ids r.
Proof.
  revert s. induction ks as [|k ks IH]; intros s; simpl.
  - split; [by left | intros [?|(k & r & Hk & _)]; [done | by apply elem_of_nil in Hk]].
  - rewrite IH. setoid_rewrite elem_of_cons. unfold add_referenced_by_line.
    destruct (m !! k) as [r|] eqn:Hk; [rewrite elem_of_union|]; naive_solver.
Qed.

Lemma add_time_period_references_direct m refs acc (x : string) :
  x ∈ referenced_directly (foldl (add_time_period_references m) acc refs)
  ↔ x ∈ referenced_directly acc ∨ ∃ ref, ref ∈ refs ∧ x ∈ ref.2.
Proof.
  revert acc. induction refs as [|ref refs IH]; intros acc; simpl.
  - split; [by left | intros [?|(k & Hk & _)]; [done | by apply elem_of_nil in Hk]].
  - rewrite IH. setoid_rewrite elem_of_cons. simpl. rewrite elem_of_union.
    naive_solver.
Qed.

Lemma add_time_period_references_lines m refs acc (x : string) :
  x ∈ referenced_by_lines (foldl (add_time_period_references m) acc refs)
  ↔ x ∈ referenced_by_lines acc
    ∨ ∃ ref k r, ref ∈ refs ∧ k ∈ ref.2 ∧ m !! k = Some r
                 ∧ x ∈ get_referenced_feature_ids r.
Proof.
  revert acc. induction refs as [|ref refs IH]; intros acc; simpl.
  - split; [by left | intros [?|(k & ? & ? & Hk & _)]; [done | by apply elem_of_nil in Hk]].
  - rewrite IH. setoid_rewrite elem_of_cons. simpl.
    rewrite elem_of_add_referenced_by_lines.
    setoid_rewrite elem_of_elements. naive_solver.
Qed.

Lemma find_referenced_loop_direct m rs acc (x : string) :
  x ∈ referenced_directly
        (foldl (λ referenced r,
                  foldl (add_time_period_references m) referenced
                        (get_references r)) acc rs)
  ↔ x ∈ referenced_directly acc
    ∨ ∃ r, r ∈ rs ∧ x ∈ get_referenced_feature_ids r.
Proof.
  revert acc. induction rs as [|r rs IH]; intros acc; simpl.
  - split; [by left | intros [?|(k & Hk & _)]; [done | by apply elem_of_nil in Hk]].
  - rewrite IH, add_time_period_references_direct.
    setoid_rewrite elem_of_cons.
    setoid_rewrite elem_of_get_referenced_feature_ids. naive_solver.
Qed.

Lemma find_referenced_loop_lines m rs acc (x : string) :
  x ∈ referenced_by_lines
        (foldl (λ referenced r,
                  foldl (add_time_period_references m) referenced
                        (get_references r)) acc rs)
  ↔ x ∈ referenced_by_lines acc
    ∨ ∃ p k r, p ∈ rs ∧ k ∈ get_referenced_feature_ids p
               ∧ m !! k = Some r ∧ x ∈ get_referenced_feature_ids r.
Proof.
  revert acc. induction rs as [|r rs IH]; intros acc; simpl.
  - split; [by left | intros [?|(k & ? & ? & Hk & _)]; [done | by apply elem_of_nil in Hk]].
  - rewrite IH, add_time_period_references_lines.
    setoid_rewrite elem_of_cons.
    setoid_rewrite elem_of_get_referenced_feature_ids. naive_solver.
Qed.

Lemma find_referenced_direct found (x : string) :
  x ∈ referenced_directly (find_referenced found)
  ↔ ∃ r, r ∈ polygon_and_network_references found
         ∧ x ∈ get_referenced_feature_ids r.
Proof.
  unfold find_referenced. rewrite find_referenced_loop_direct. set_solver.
Qed.

Lemma find_referenced_lines found (x : string) :
  x ∈ referenced_by_lines (find_referenced found)
  ↔ ∃ k r, k ∈ referenced_directly (find_referenced found)
           ∧ line_references found !! k = Some r
           ∧ x ∈ get_referenced_feature_ids r.
Proof.
  setoid_rewrite find_referenced_direct.
  unfold find_referenced. rewrite find_referenced_loop_lines.
  cbn. rewrite elem_of_empty. naive_solver.
Qed.

(** ** The keep-set of the code against the keep-set of the specification *)

Lemma elem_of_polygon_and_network_ids fcs (x : string) :
  x ∈ polygon_and_network_ids fcs
  ↔ ∃ p, p ∈ all_features fcs ∧ is_polygon_or_network p ∧ get_feature_id p = x.
Proof.
  unfold polygon_and_network_ids.
  rewrite elem_of_list_to_set, list_elem_of_fmap.
  setoid_rewrite list_elem_of_filter. naive_solver.
Qed.

Lemma elem_of_directly_referenced_ids fcs (x : string) :
  x ∈ directly_referenced_ids fcs
  ↔ ∃ p, p ∈ all_features fcs ∧ is_polygon_or_network p ∧ x ∈ referenced_ids p.
Proof.
  unfold directly_referenced_ids. rewrite elem_of_union_list.
  setoid_rewrite list_elem_of_fmap. setoid_rewrite list_elem_of_filter.
  naive_solver.
Qed.

Lemma elem_of_ids_referenced_via_lines fcs (x : string) :
  x ∈ ids_referenced_via_lines fcs
  ↔ ∃ l, l ∈ all_features fcs ∧ is_line l
         ∧ get_feature_id l ∈ directly_referenced_ids fcs
         ∧ x ∈ referenced_ids l.
Proof.
  unfold ids_referenced_via_lines. rewrite elem_of_union_list.
  setoid_rewrite list_elem_of_fmap. setoid_rewrite list_elem_of_filter.
  naive_solver.
Qed.

Lemma polygons_and_networks_spec fcs :
  polygons_and_networks (find_topologies fcs) = polygon_and_network_ids fcs.
Proof.
  apply set_eq. intros x.
  by rewrite find_topologies_flat, topologies_of_polygons,
    elem_of_polygon_and_network_ids.
Qed.

Lemma referenced_directly_spec fcs :
  referenced_directly (find_referenced (find_topologies fcs))
  = directly_referenced_ids fcs.
Proof.
  apply set_eq. intros x.
  rewrite find_referenced_direct, find_topologies_flat,
    topologies_of_references, elem_of_directly_referenced_ids.
  setoid_rewrite list_elem_of_fmap. setoid_rewrite list_elem_of_filter.
  unfold referenced_ids. naive_solver.
Qed.

(** What the code keeps, with the dictionary of lines still in sight. *)
Lemma elem_of_feature_ids_to_keep fcs (x : string) :
  x ∈ feature_ids_to_keep fcs
  ↔ x ∈ polygon_and_network_ids fcs
    ∨ x ∈ directly_referenced_ids fcs
    ∨ ∃ k r, k ∈ directly_referenced_ids fcs
             ∧ line_references (find_topologies fcs) !! k = Some r
             ∧ x ∈ get_referenced_feature_ids r.
Proof.
  unfold feature_ids_to_keep. cbn zeta.
  rewrite !elem_of_union, find_referenced_lines, referenced_directly_spec,
    polygons_and_networks_spec.
  naive_solver.
Qed.

(** The code never keeps more than the specification's keep-set. *)
Lemma feature_ids_to_keep_subseteq fcs :
  feature_ids_to_keep fcs ⊆ two_hop_keep_set fcs.
Proof.
  intros x. rewrite elem_of_feature_ids_to_keep. unfold two_hop_keep_set.
  rewrite !elem_of_union, elem_of_ids_referenced_via_lines.
  intros [?|[?|(k & r & Hk & Hr & Hx)]]; [tauto | tauto |].
  rewrite find_topologies_flat in Hr.
  apply topologies_of_lines_Some in Hr as (l & ? & ? & <- & <-).
  right. exists l. done.
Qed.

(** They agree when no two lines share an id. *)
Lemma feature_ids_to_keep_two_hop fcs :
  unique_line_ids fcs → feature_ids_to_keep fcs = two_hop_keep_set fcs.
Proof.
  intros Hu. apply set_eq. intros x. split; [apply feature_ids_to_keep_subseteq|].
  rewrite elem_of_feature_ids_to_keep. unfold two_hop_keep_set.
  rewrite !elem_of_union, elem_of_ids_referenced_via_lines.
  intros [[?|?]|(l & Hl & Hline & Hk & Hx)]; [tauto | tauto |].
  right; right. exists (get_feature_id l), (topological_reference l).
  split; [done|]. split; [|done].
  rewrite find_topologies_flat. by apply topologies_of_lines_unique.
Qed.

(** Survival is membership of the id in the code's keep-set. *)
Lemma survives_iff fcs flag i f :
  in_collection fcs i f →
  survives fcs flag i f ↔ get_feature_id f ∈ feature_ids_to_keep fcs.
Proof.
  intros (fc & Hfc & Hin). unfold survives.
  rewrite remove_features_filter, list_lookup_fmap, Hfc. simpl. split.
  - intros (out & [= <-] & Hf). by apply list_elem_of_filter in Hf as [? _].
  - intros Hk. eexists. split; [done|]. by apply list_elem_of_filter.
Qed.

Lemma elem_of_concat {A} (x : A) (ls : list (list A)) :
  x ∈ concat ls ↔ ∃ l, l ∈ ls ∧ x ∈ l.
Proof.
  induction ls as [|l ls IH]; simpl.
  - split; [intros H; by apply elem_of_nil in H
           | intros (l & Hl & _); by apply elem_of_nil in Hl].
  - rewrite elem_of_app, IH. setoid_rewrite elem_of_cons. naive_solver.
Qed.

Lemma in_collection_all_features fcs i f :
  in_collection fcs i f → f ∈ all_features fcs.
Proof.
  intros (fc & Hfc & Hin). unfold all_features.
  apply elem_of_concat. exists fc. split; [|done].
  by eapply list_elem_of_lookup_2.
Qed.

(** * The claims *)

(** ** Polygons and networks are kept *)

(** C3: every feature whose topology kind is Polygon or Network stands in
    the returned collection that corresponds to its input collection; the
    filter never removes it. *)
Theorem polygons_and_networks_survive fcs flag i f :
  in_collection fcs i f → is_polygon_or_network f → survives fcs flag i f.
Proof.
  intros Hin Hpn. apply survives_iff; [done|].
  apply elem_of_feature_ids_to_keep. left.
  apply elem_of_polygon_and_network_ids. exists f.
  eauto using in_collection_all_features.
Qed.

Lemma polygons_and_networks_survive_witness :
  survives Scenario.collections false 0 Scenario.P.
Proof.
  apply polygons_and_networks_survive.
  - exists [Scenario.P; Scenario.regular "R1"]. split; [reflexivity|].
    apply list_elem_of_here.
  - left. reflexivity.
Defined.

(** ** Shape and order of the result *)

(** C9: the returned list has one collection per input collection, in the
    same order; each is the input collection restricted to the features
    whose id is kept, so the survivors keep their relative order, none is
    duplicated and none moves to another collection. *)
Theorem result_is_filtered_collections fcs flag :
  remove_features_not_referenced_by_topologies fcs flag
  = map (filter (λ f, get_feature_id f ∈ feature_ids_to_keep fcs)) fcs
  ∧ length (remove_features_not_referenced_by_topologies fcs flag) = length fcs
  ∧ Forall2 sublist (remove_features_not_referenced_by_topologies fcs flag) fcs.
Proof.
  rewrite remove_features_filter. split; [done|]. split.
  - by rewrite length_map.
  - apply Forall2_fmap_l, Forall_Forall2_diag, Forall_forall.
    intros fc _. apply sublist_filter.
Qed.

(** ** Two-hop reachability *)

(** C1, as amended: on an input in which no two Line features share a
    feature id, a non-topological feature survives the filter if and only
    if its id is in {ids of Polygon/Network features} ∪ {ids they
    reference directly, over all time windows} ∪ {ids referenced by some
    Line whose id is directly referenced}. *)
Theorem regular_feature_survival fcs flag i f :
  unique_line_ids fcs →
  in_collection fcs i f → topology_kind f = None →
  survives fcs flag i f ↔ get_feature_id f ∈ two_hop_keep_set fcs.
Proof.
  intros Hu Hin _. rewrite survives_iff by done.
  by rewrite feature_ids_to_keep_two_hop.
Qed.

Lemma regular_feature_survival_witness :
  survives Scenario.collections false 1 (Scenario.regular "R2")
  ↔ "R2" ∈ two_hop_keep_set Scenario.collections.
Proof.
  apply (regular_feature_survival Scenario.collections false 1
           (Scenario.regular "R2")).
  - by_evaluation.
  - eexists. split; [reflexivity|]. apply list_elem_of_further, list_elem_of_here.
  - reflexivity.
Defined.

(** C1 as stated fails when two lines share an id: the dictionary of
    lines keeps the reference of the last one only, so R1, referenced by
    the first line "L" (an id the polygon references), is in the
    specification's keep-set and yet removed. *)
Lemma regular_feature_removed_under_duplicate_line_ids :
  in_collection Scenario.duplicate_lines 0 (Scenario.regular "R1")
  ∧ topology_kind (Scenario.regular "R1") = None
  ∧ "R1" ∈ two_hop_keep_set Scenario.duplicate_lines
  ∧ ¬ survives Scenario.duplicate_lines false 0 (Scenario.regular "R1").
Proof.
  assert (Hin : in_collection Scenario.duplicate_lines 0 (Scenario.regular "R1")).
  { eexists. split; [reflexivity|]. do 3 apply list_elem_of_further.
    apply list_elem_of_here. }
  split; [done|]. split; [reflexivity|]. split; [by_evaluation|].
  rewrite survives_iff by done. by_evaluation.
Qed.

(** C6, as amended: on an input in which no two Line features share a
    feature id, for every Line whose id is among the ids directly
    referenced by polygons and networks, every id the Line references, in
    whichever of its time windows, is in the keep-set. *)
Theorem referenced_line_brings_all_its_references fcs l time_period ids :
  unique_line_ids fcs →
  l ∈ all_features fcs → is_line l →
  get_feature_id l
    ∈ referenced_directly (find_referenced (find_topologies fcs)) →
  (time_period, ids) ∈ get_references (topological_reference l) →
  ids ⊆ feature_ids_to_keep fcs.
Proof.
  intros Hu Hl Hline Hd Hids x Hx.
  rewrite referenced_directly_spec in Hd.
  apply elem_of_feature_ids_to_keep. right; right.
  exists (get_feature_id l), (topological_reference l).
  split; [done|]. split.
  - rewrite find_topologies_flat. by apply topologies_of_lines_unique.
  - apply elem_of_get_referenced_feature_ids. by exists (time_period, ids).
Qed.

Lemma referenced_line_brings_all_its_references_witness :
  add_all ["R2"; "R3"] ∅ ⊆ feature_ids_to_keep Scenario.collections.
Proof.
  apply (referenced_line_brings_all_its_references Scenario.collections
           Scenario.L ALL_TIME).
  - by_evaluation.
  - do 2 apply list_elem_of_further. apply list_elem_of_here.
  - reflexivity.
  - by_evaluation.
  - apply list_elem_of_here.
Defined.

(** C6 as stated fails when two lines share an id: the first line "L" has
    an id the polygon references, and R1, which it references, is not
    kept. *)
Lemma first_of_two_lines_contributes_nothing :
  Scenario.first_L ∈ all_features Scenario.duplicate_lines
  ∧ is_line Scenario.first_L
  ∧ get_feature_id Scenario.first_L
      ∈ referenced_directly
          (find_referenced (find_topologies Scenario.duplicate_lines))
  ∧ ∃ time_period ids,
      (time_period, ids)
        ∈ get_references (topological_reference Scenario.first_L)
      ∧ ¬ ids ⊆ feature_ids_to_keep Scenario.duplicate_lines.
Proof.
  split; [apply list_elem_of_further, list_elem_of_here|].
  split; [reflexivity|]. split; [by_evaluation|].
  exists ALL_TIME, (add_all ["R1"] ∅). split; [apply list_elem_of_here|].
  intros Hsub. specialize (Hsub "R1"). revert Hsub.
  assert (H1 : "R1" ∈ add_all ["R1"] ∅) by by_evaluation.
  assert (H2 : "R1" ∉ feature_ids_to_keep Scenario.duplicate_lines)
    by by_evaluation.
  tauto.
Qed.

(** ** Lines *)

Lemma unique_feature_ids_lines fcs : unique_feature_ids fcs → unique_line_ids fcs.
Proof.
  unfold unique_feature_ids, unique_line_ids. intros Hu.
  eapply sublist_NoDup; [exact Hu|]. apply fmap_sublist, sublist_filter.
Qed.

Lemma unique_ids_inj (l : list Feature) f g :
  NoDup (get_feature_id <$> l) → f ∈ l → g ∈ l →
  get_feature_id f = get_feature_id g → f = g.
Proof.
  intros Hnd Hf Hg Heq.
  apply list_elem_of_lookup in Hf as [i Hi], Hg as [j Hj].
  assert (i = j) as ->; [|congruence].
  eapply (NoDup_lookup _ i j (get_feature_id f) Hnd);
    rewrite list_lookup_fmap; [by rewrite Hi | by rewrite Hj, Heq].
Qed.

(** C4, as amended: on an input whose feature ids are unique, a Line
    survives the filter if and only if its id is referenced by at least
    one Polygon or Network feature, or by a Line that a Polygon or Network
    references; a Line referenced by nothing, or only by Lines that no
    Polygon or Network references, is removed. *)
Theorem line_survival fcs flag i l :
  unique_feature_ids fcs →
  in_collection fcs i l → is_line l →
  survives fcs flag i l
  ↔ get_feature_id l ∈ directly_referenced_ids fcs
    ∨ get_feature_id l ∈ ids_referenced_via_lines fcs.
Proof.
  intros Hu Hin Hline. rewrite survives_iff by done.
  rewrite feature_ids_to_keep_two_hop by by apply unique_feature_ids_lines.
  unfold two_hop_keep_set. rewrite !elem_of_union. split; [|tauto].
  intros [[Hpn|?]|?]; [|tauto..].
  apply elem_of_polygon_and_network_ids in Hpn as (p & Hp & Hpn & Heq).
  apply in_collection_all_features in Hin.
  assert (p = l) as -> by eauto using unique_ids_inj.
  by destruct (line_not_polygon_or_network l).
Qed.

Lemma line_survival_witness :
  survives Scenario.collections false 1 Scenario.L2
  ↔ get_feature_id Scenario.L2 ∈ directly_referenced_ids Scenario.collections
    ∨ get_feature_id Scenario.L2
        ∈ ids_referenced_via_lines Scenario.collections.
Proof.
  apply (line_survival Scenario.collections false 1 Scenario.L2).
  - by_evaluation.
  - eexists. split; [reflexivity|]. do 4 apply list_elem_of_further.
    apply list_elem_of_here.
  - reflexivity.
Defined.

(** C4 as stated fails: line L2 is referenced by no polygon or network,
    only by line L1, and survives because the polygon references L1. *)
Lemma line_referenced_only_by_a_line_survives :
  in_collection Scenario.line_chain 0 Scenario.inner_line
  ∧ is_line Scenario.inner_line
  ∧ (get_feature_id Scenario.inner_line
       ∉ directly_referenced_ids Scenario.line_chain)
  ∧ survives Scenario.line_chain false 0 Scenario.inner_line.
Proof.
  assert (Hin : in_collection Scenario.line_chain 0 Scenario.inner_line).
  { eexists. split; [reflexivity|]. do 2 apply list_elem_of_further.
    apply list_elem_of_here. }
  split; [done|]. split; [reflexivity|]. split; [by_evaluation|].
  rewrite survives_iff by done. by_evaluation.
Qed.

(** ** Idempotence *)

Lemma concat_filter {A} (P : A → Prop) `{!∀ x, Decision (P x)}
    (ls : list (list A)) :
  concat (map (filter P) ls) = filter P (concat ls).
Proof.
  induction ls as [|l ls IH]; simpl; [done|]. by rewrite filter_app, IH.
Qed.

Lemma filter_absorb {A} (P Q : A → Prop)
    `{!∀ x, Decision (P x), !∀ x, Decision (Q x)} (l : list A) :
  (∀ x, x ∈ l → Q x → P x) → filter Q (filter P l) = filter Q l.
Proof.
  induction l as [|a l IH]; intros Himp; [done|].
  rewrite !filter_cons.
  assert (IH' : filter Q (filter P l) = filter Q l).
  { apply IH. intros x Hx. apply Himp. by right. }
  destruct (decide (P a)) as [HP|HP].
  - rewrite filter_cons. by rewrite IH'.
  - rewrite IH'. rewrite decide_False; [done|].
    intros HQ. apply HP, Himp; [left | done].
Qed.

(** Dropping features whose id is outside [keep] does not change what the
    dictionary of lines holds at a key inside [keep]. *)
Lemma topologies_of_lines_filter (keep : gset string) l (k : string) :
  k ∈ keep →
  line_references
    (topologies_of (filter (λ f, get_feature_id f ∈ keep) l)) !! k
  = line_references (topologies_of l) !! k.
Proof.
  intros Hk. induction l as [|f l IH] using rev_ind; [done|].
  rewrite filter_app, filter_cons, filter_nil, topologies_of_snoc.
  rewrite find_topology_lines.
  destruct (decide (get_feature_id f ∈ keep)) as [Hf|Hf].
  - rewrite topologies_of_snoc, find_topology_lines.
    case_decide; [|done].
    destruct (decide (get_feature_id f = k)) as [->|Hne].
    + by rewrite !lookup_insert_eq.
    + by rewrite !lookup_insert_ne.
  - rewrite app_nil_r, IH. case_decide; [|done].
    rewrite lookup_insert_ne; [done|]. intros Heq. apply Hf. by rewrite Heq.
Qed.

Lemma feature_ids_to_keep_filtered fcs :
  feature_ids_to_keep
    (map (filter (λ f, get_feature_id f ∈ feature_ids_to_keep fcs)) fcs)
  = feature_ids_to_keep fcs.
Proof.
  set (keep := feature_ids_to_keep fcs).
  set (out := map (filter (λ f, get_feature_id f ∈ keep)) fcs).
  assert (Hall : all_features out
                 = filter (λ f, get_feature_id f ∈ keep) (all_features fcs))
    by apply concat_filter.
  assert (Hpn : filter is_polygon_or_network (all_features out)
                = filter is_polygon_or_network (all_features fcs)).
  { rewrite Hall. apply filter_absorb. intros p Hp Hpn.
    apply elem_of_feature_ids_to_keep. left.
    apply elem_of_polygon_and_network_ids. by exists p. }
  assert (Hids : polygon_and_network_ids out = polygon_and_network_ids fcs)
    by (unfold polygon_and_network_ids; by rewrite Hpn).
  assert (Hdir : directly_referenced_ids out = directly_referenced_ids fcs)
    by (unfold directly_referenced_ids; by rewrite Hpn).
  apply set_eq. intros x.
  change (x ∈ feature_ids_to_keep out ↔ x ∈ feature_ids_to_keep fcs).
  rewrite !elem_of_feature_ids_to_keep, Hids, Hdir.
  assert (Hlines : ∀ (k : string), k ∈ directly_referenced_ids fcs →
            line_references (find_topologies out) !! k
            = line_references (find_topologies fcs) !! k).
  { intros k Hk. rewrite !find_topologies_flat, Hall.
    apply topologies_of_lines_filter. unfold keep.
    apply elem_of_feature_ids_to_keep. right; left. exact Hk. }
  split; (intros [?|[?|(k & r & Hk & Hr & Hx)]]; [tauto | tauto |]);
    right; right; exists k, r; (split; [done|]); (split; [|done]).
  - by rewrite <- Hlines.
  - by rewrite Hlines.
Qed.

(** C8: the filter is idempotent: applied to its own output it returns
    that output. *)
Theorem remove_features_idempotent fcs flag flag' :
  remove_features_not_referenced_by_topologies
    (remove_features_not_referenced_by_topologies fcs flag) flag'
  = remove_features_not_referenced_by_topologies fcs flag.
Proof.
  rewrite (remove_features_filter fcs flag), remove_features_filter.
  rewrite feature_ids_to_keep_filtered, map_map.
  apply map_ext. intros fc. apply filter_absorb. tauto.
Qed.

(** * The extractor *)

(** ** Induction over nested property values *)

Lemma PropertyValue_nested_ind (P : PropertyValue → Prop) :
  (∀ value, P value → P (ConstantValue value)) →
  (∀ value_type time_windows,
     Forall (λ w, P (get_value w)) time_windows →
     P (PiecewiseAggregation value_type time_windows)) →
  (∀ sections, P (TopologicalLine sections)) →
  (∀ sections, P (TopologicalPolygon sections)) →
  (∀ sections interiors, P (TopologicalNetwork sections interiors)) →
  (∀ begin_time end_time, P (TimePeriodValue begin_time end_time)) →
  P OtherValue →
  ∀ property_value, P property_value.
Proof.
  intros Hconstant Hpiecewise Hline Hpolygon Hnetwork Hperiod Hother.
  fix IH 1. intros [value|value_type time_windows|s|s|s i|b e|].
  - apply Hconstant, IH.
  - apply Hpiecewise.
    induction time_windows as [|w ws IHws]; constructor; [apply IH | exact IHws].
  - apply Hline.
  - apply Hpolygon.
  - apply Hnetwork.
  - apply Hperiod.
  - apply Hother.
Qed.

(** ** The loop over the time windows *)

Lemma accept_visitor_piecewise value_type time_windows self :
  accept_visitor (PiecewiseAggregation value_type time_windows) self
  = if is_topological_type value_type then
      match time_windows with
      | [w] => accept_visitor (get_value w) self
      | _ => foldl visit_time_window self time_windows
      end
    else self.
Proof.
  simpl. destruct (is_topological_type value_type); [|done].
  match goal with
  | |- context [ ?loop time_windows self ] =>
      assert (Hloop : ∀ ws s, loop ws s = foldl visit_time_window s ws)
        by (induction ws as [|w ws IHws]; intros s; simpl; [done | apply IHws])
  end.
  destruct time_windows as [|w [|w' ws]];
    [done | done | exact (Hloop (w :: w' :: ws) self)].
Qed.

Lemma set_current_time_period_twice p q self :
  set_current_time_period p (set_current_time_period q self)
  = set_current_time_period p self.
Proof. done. Qed.

(** ** A visit that assigns no topology type changes nothing *)

Lemma inert_windows ws :
  Forall (λ w, inert (get_value w)) ws →
  ∀ self,
    (is_Some (topology_type self) →
     is_Some (topology_type (foldl visit_time_window self ws)))
    ∧ (topology_type (foldl visit_time_window self ws) = None →
       foldl visit_time_window self ws = self
       ∨ foldl visit_time_window self ws
         = set_current_time_period ALL_TIME self).
Proof.
  induction 1 as [|w ws Hw _ IH]; intros self; simpl; [by auto|].
  set (period := (get_begin_time w, get_end_time w)).
  destruct (Hw (set_current_time_period period self)) as [Hmono Hnone].
  destruct (IH (visit_time_window self w)) as [IHmono IHnone].
  split.
  - intros Hsome. apply IHmono. unfold visit_time_window. simpl.
    by apply Hmono.
  - intros Hend. right.
    assert (Hmid : topology_type (visit_time_window self w) = None).
    { destruct (topology_type (visit_time_window self w)) eqn:E; [|done].
      destruct IHmono as [t Ht]; [by eexists|]. congruence. }
    assert (Hw' : visit_time_window self w
                  = set_current_time_period ALL_TIME self).
    { unfold visit_time_window in *. fold period in Hmid |- *. simpl in Hmid.
      destruct (Hnone Hmid) as [->| ->]; done. }
    destruct (IHnone Hend) as [->| ->]; by rewrite Hw'.
Qed.

Lemma accept_visitor_inert property_value : inert property_value.
Proof.
  induction property_value as
    [value IH|value_type ws IH|sections|sections|sections interiors|b e|]
    using PropertyValue_nested_ind; intros self;
    try (simpl; split; [by eauto | by auto]).
  - apply IH.
  - rewrite accept_visitor_piecewise.
    destruct (is_topological_type value_type); [|by auto].
    destruct ws as [|w [|w' ws]].
    + by auto.
    + by apply Forall_cons_1 in IH as [IH _].
    + by apply inert_windows.
Qed.

Lemma accept_visitor_fresh_None property_value :
  topology_type (accept_visitor property_value fresh_visitor) = None →
  accept_visitor property_value fresh_visitor = fresh_visitor.
Proof.
  intros H. by destruct (proj2 (accept_visitor_inert property_value _) H).
Qed.

(** The loop over the properties stops at the first topological one. *)
Lemma visit_properties_first pre p post :
  Forall (λ q, ¬ is_topological_property q) pre →
  is_topological_property p →
  visit_properties (pre ++ p :: post) fresh_visitor
  = accept_visitor (get_time_dependent_value p) fresh_visitor.
Proof.
  intros Hpre [t Hp]. induction Hpre as [|q pre Hq _ IH]; simpl.
  - by rewrite Hp.
  - unfold is_topological_property in Hq.
    apply eq_None_not_Some in Hq.
    by rewrite (accept_visitor_fresh_None _ Hq).
Qed.

(** C7: the topology kind of a feature, and its references, are those
    assigned by the first topological property in declaration order: the
    properties before it leave no trace, the properties after it are not
    scanned.  The kind is a single value, so a feature is never both a
    Line and a Polygon. *)
Theorem first_topological_property_decides f pre p post :
  properties f = pre ++ p :: post →
  Forall (λ q, ¬ is_topological_property q) pre →
  is_topological_property p →
  let visited := accept_visitor (get_time_dependent_value p) fresh_visitor in
  visit_feature f
  = (topology_type visited,
     {| get_feature := f; get_references := references visited |})
  ∧ is_Some (topology_kind f)
  ∧ ¬ (is_line f ∧ topology_kind f = Some GpmlTopologicalPolygon).
Proof.
  intros Hf Hpre Hp visited.
  assert (Hvisit : visit_feature f
            = (topology_type visited,
               {| get_feature := f; get_references := references visited |})).
  { unfold visit_feature. by rewrite Hf, visit_properties_first. }
  split; [done|]. split.
  - unfold topology_kind. rewrite Hvisit. exact Hp.
  - unfold is_line. intros [H1 H2]. congruence.
Qed.

Lemma first_topological_property_decides_witness :
  let f := {| get_feature_id := "F";
              properties :=
                [ {| get_name := "gml:validTime";
                     get_time_dependent_value := TimePeriodValue 100 0 |};
                  {| get_name := "gpml:boundary";
                     get_time_dependent_value :=
                       ConstantValue (TopologicalPolygon ["A"]) |};
                  {| get_name := "gpml:centerLineOf";
                     get_time_dependent_value :=
                       ConstantValue (TopologicalLine ["B"]) |} ] |} in
  visit_feature f
  = (Some GpmlTopologicalPolygon,
     {| get_feature := f;
        get_references := [(ALL_TIME, add_all ["A"] ∅)] |})
  ∧ is_Some (topology_kind f)
  ∧ ¬ (is_line f ∧ topology_kind f = Some GpmlTopologicalPolygon).
Proof.
  intros f.
  apply (first_topological_property_decides f
           [ {| get_name := "gml:validTime";
                get_time_dependent_value := TimePeriodValue 100 0 |} ]
           {| get_name := "gpml:boundary";
              get_time_dependent_value :=
                ConstantValue (TopologicalPolygon ["A"]) |}
           [ {| get_name := "gpml:centerLineOf";
                get_time_dependent_value :=
                  ConstantValue (TopologicalLine ["B"]) |} ]).
  - reflexivity.
  - constructor; [|constructor]. intros [t Ht]. discriminate Ht.
  - eexists. reflexivity.
Defined.

(** ** Time windows *)

Lemma accept_visitor_topological_value value self :
  is_topological_value value = true →
  references (accept_visitor value self)
  = references self ++ [(current_time_period self, section_feature_ids value)]
  ∧ is_Some (topology_type (accept_visitor value self)).
Proof. destruct value; try discriminate; intros _; simpl; eauto. Qed.

Lemma visit_time_windows_topological ws :
  Forall (λ w, is_topological_value (get_value w) = true) ws →
  ∀ self,
    references (foldl visit_time_window self ws)
    = references self
      ++ map (λ w, ((get_begin_time w, get_end_time w),
                    section_feature_ids (get_value w))) ws
    ∧ (ws ≠ [] → is_Some (topology_type (foldl visit_time_window self ws))).
Proof.
  induction 1 as [|w ws Hw Hws IH]; intros self; simpl.
  - by rewrite app_nil_r.
  - destruct (IH (visit_time_window self w)) as [-> _].
    destruct (accept_visitor_topological_value (get_value w)
                (set_current_time_period
                   (get_begin_time w, get_end_time w) self) Hw)
      as [Hrefs Hsome].
    split.
    + unfold visit_time_window. simpl. rewrite Hrefs. simpl.
      by rewrite <- app_assoc.
    + intros _. apply inert_windows; [|done].
      apply Forall_forall. intros. apply accept_visitor_inert.
Qed.

(** C5: when the topological property of a feature is a time-dependent
    aggregate of topological lines, polygons or networks, a sole time
    window has its reference recorded with the period "all time",
    whatever begin and end the window declares; with more than one window,
    each window's reference is recorded with the window's own declared
    period, in window order. *)
Theorem time_window_periods f pre name value_type time_windows post :
  properties f
  = pre ++ {| get_name := name;
              get_time_dependent_value :=
                PiecewiseAggregation value_type time_windows |} :: post →
  Forall (λ q, ¬ is_topological_property q) pre →
  is_topological_type value_type = true →
  time_windows ≠ [] →
  Forall (λ w, is_topological_value (get_value w) = true) time_windows →
  get_references (topological_reference f)
  = match time_windows with
    | [w] => [(ALL_TIME, section_feature_ids (get_value w))]
    | _ => map (λ w, ((get_begin_time w, get_end_time w),
                      section_feature_ids (get_value w))) time_windows
    end.
Proof.
  intros Hf Hpre Htype Hne Hws.
  set (p := {| get_name := name;
               get_time_dependent_value :=
                 PiecewiseAggregation value_type time_windows |}) in *.
  assert (Hvisit : accept_visitor (get_time_dependent_value p) fresh_visitor
                   = match time_windows with
                     | [w] => accept_visitor (get_value w) fresh_visitor
                     | _ => foldl visit_time_window fresh_visitor time_windows
                     end).
  { unfold p. cbn [get_time_dependent_value].
    by rewrite accept_visitor_piecewise, Htype. }
  assert (Hp : is_topological_property p).
  { unfold is_topological_property. rewrite Hvisit.
    destruct time_windows as [|w [|w' ws]]; [done | |].
    - apply Forall_cons_1 in Hws as [Hw _].
      by apply accept_visitor_topological_value.
    - by apply visit_time_windows_topological. }
  unfold topological_reference, visit_feature. rewrite Hf.
  rewrite visit_properties_first by done. cbn [snd get_references].
  rewrite Hvisit.
  destruct time_windows as [|w [|w' ws]]; [done | |].
  - apply Forall_cons_1 in Hws as [Hw _].
    by destruct (accept_visitor_topological_value (get_value w)
                   fresh_visitor Hw) as [-> _].
  - by destruct (visit_time_windows_topological _ Hws fresh_visitor) as [-> _].
Qed.

Lemma time_window_periods_witness :
  get_references
    (topological_reference
       (Scenario.topological "N"
          (PiecewiseAggregation GpmlTopologicalNetwork
             [ TimeWindow 10 5 (TopologicalNetwork ["L"] ["R1"]);
               TimeWindow 5 0 (TopologicalNetwork ["L"] ["R2"]) ])))
  = map (λ w, ((get_begin_time w, get_end_time w),
               section_feature_ids (get_value w)))
        [ TimeWindow 10 5 (TopologicalNetwork ["L"] ["R1"]);
          TimeWindow 5 0 (TopologicalNetwork ["L"] ["R2"]) ].
Proof.
  apply (time_window_periods _ [] "gpml:topology" GpmlTopologicalNetwork
           [ TimeWindow 10 5 (TopologicalNetwork ["L"] ["R1"]);
             TimeWindow 5 0 (TopologicalNetwork ["L"] ["R2"]) ] []).
  - reflexivity.
  - constructor.
  - reflexivity.
  - discriminate.
  - repeat constructor.
Defined.

(** The sole window of an old-format file: its declared period 10–5 is
    not the recorded one. *)
Example sole_window_recorded_for_all_time :
  get_references
    (topological_reference
       (Scenario.topological "P"
          (PiecewiseAggregation GpmlTopologicalPolygon
             [ TimeWindow 10 5 (TopologicalPolygon ["R"]) ])))
  = [(ALL_TIME, add_all ["R"] ∅)].
Proof. reflexivity. Qed.

(** ** Declared periods do not reach the keep-set *)









Lemma Forall2_elem_of_l {A B} (R : A → B → Prop) l k x :
  Forall2 R l k → x ∈ l → ∃ y, y ∈ k ∧ R x y.
Proof.
  induction 1 as [|a b l k Hab _ IH]; intros Hx.
  - by apply elem_of_nil in Hx.
  - apply elem_of_cons in Hx as [->|Hx].
    + exists b. split; [left | done].
    + destruct (IH Hx) as (y & ? & ?). exists y. split; [by right | done].
Qed.

Lemma same_topology_sym f g : same_topology f g → same_topology g f.
Proof. intros (? & ? & ?). by repeat split. Qed.

Lemma same_topology_polygon_or_network f g :
  same_topology f g → is_polygon_or_network f → is_polygon_or_network g.
Proof. unfold is_polygon_or_network. intros (_ & <- & _). done. Qed.

Lemma same_topology_line f g : same_topology f g → is_line f ↔ is_line g.
Proof. unfold is_line. intros (_ & <- & _). done. Qed.

Lemma lines_agree_foldl l k :
  Forall2 same_topology l k →
  ∀ a b, lines_agree a b →
    lines_agree (foldl find_topology a l) (foldl find_topology b k).
Proof.
  induction 1 as [|f g l k Hfg _ IH]; intros a b Hab; simpl; [done|].
  apply IH. intros key. rewrite !find_topology_lines.
  pose proof (same_topology_line f g Hfg) as Hline.
  destruct Hfg as (Hid & _ & Hrefs).
  destruct (decide (is_line f)) as [Hf|Hf].
  - rewrite decide_True by tauto. rewrite <- Hid.
    destruct (decide (get_feature_id f = key)) as [->|Hne].
    + rewrite !lookup_insert_eq. by constructor.
    + rewrite !lookup_insert_ne by done. apply Hab.
  - rewrite decide_False by tauto. apply Hab.
Qed.

Lemma feature_ids_to_keep_same_topology A B :
  Forall2 same_topology (all_features A) (all_features B) →
  feature_ids_to_keep A ⊆ feature_ids_to_keep B.
Proof.
  intros HAB x. rewrite !elem_of_feature_ids_to_keep.
  assert (Hdir : ∀ y : string, y ∈ directly_referenced_ids A →
                               y ∈ directly_referenced_ids B).
  { intros y. rewrite !elem_of_directly_referenced_ids.
    intros (p & Hp & Hpn & Hy).
    destruct (Forall2_elem_of_l _ _ _ _ HAB Hp) as (q & Hq & Hpq).
    exists q. split; [done|].
    split; [by eapply same_topology_polygon_or_network|].
    destruct Hpq as (_ & _ & <-). done. }
  intros [Hx|[Hx|(k & r & Hk & Hr & Hx)]].
  - left. apply elem_of_polygon_and_network_ids in Hx as (p & Hp & Hpn & <-).
    destruct (Forall2_elem_of_l _ _ _ _ HAB Hp) as (q & Hq & Hpq).
    apply elem_of_polygon_and_network_ids. exists q.
    split; [done|]. split; [by eapply same_topology_polygon_or_network|].
    by destruct Hpq as (<- & _).
  - right; left. by apply Hdir.
  - right; right.
    assert (Hagree : lines_agree (find_topologies A) (find_topologies B)).
    { rewrite !find_topologies_flat. apply lines_agree_foldl; [done|].
      intros key. cbn. rewrite lookup_empty. constructor. }
    specialize (Hagree k). rewrite Hr in Hagree.
    inversion Hagree as [r1 r' Hrr'|]; subst.
    exists k, r'. split; [by apply Hdir|]. split; [done|]. by rewrite <- Hrr'.
Qed.





(** ** The flag *)

(** The result does not depend on the flag. *)
Lemma flag_is_not_read fcs :
  remove_features_not_referenced_by_topologies fcs true
  = remove_features_not_referenced_by_topologies fcs false.
Proof. reflexivity. Qed.

(** C2: with [restrict_referenced_feature_time_periods] enabled, R1,
    declared valid from 100 Ma to the present and referenced by the
    polygon in its window from 10 Ma to 5 Ma only, is returned with its
    valid time as declared: the kept features are the very input features
    (only the unreferenced R3 is dropped), no valid time is restricted. *)
Theorem enabled_flag_restricts_nothing :
  fst <$> get_references
            (topological_reference (Scenario.changing_polygon 10))
  = [(10%float, 5%float); (5%float, 0%float)]
  ∧ remove_features_not_referenced_by_topologies
      (Scenario.time_dependent 10) true
    = [ [ Scenario.changing_polygon 10;
          Scenario.regular "R1"; Scenario.regular "R2" ] ]
  ∧ properties (Scenario.regular "R1")
    = [ {| get_name := "gml:validTime";
           get_time_dependent_value := TimePeriodValue 100 0 |} ].
Proof. split; [|split]; reflexivity. Qed.

(** * Further properties of the extractor *)

(** ** Regular features *)

Lemma visit_properties_none ps :
  Forall (λ q, ¬ is_topological_property q) ps →
  visit_properties ps fresh_visitor = fresh_visitor.
Proof.
  induction 1 as [|q ps Hq _ IH]; simpl; [done|].
  apply eq_None_not_Some in Hq.
  rewrite (accept_visitor_fresh_None _ Hq). exact IH.
Qed.

Lemma visit_properties_None_inv ps :
  topology_type (visit_properties ps fresh_visitor) = None →
  Forall (λ q, ¬ is_topological_property q) ps.
Proof.
  induction ps as [|q ps IH]; simpl; intros Hnone; [constructor|].
  destruct (topology_type
              (accept_visitor (get_time_dependent_value q) fresh_visitor))
    as [t|] eqn:Hq; [congruence|].
  rewrite (accept_visitor_fresh_None _ Hq) in Hnone.
  constructor; [|by apply IH].
  unfold is_topological_property. rewrite Hq. by intros [? ?].
Qed.

(** X1: a feature is given no topology kind exactly when none of its
    properties is topological (a feature without properties is one such),
    and it then carries no reference at all. *)
Theorem regular_feature_iff f :
  (topology_kind f = None
   ↔ Forall (λ q, ¬ is_topological_property q) (properties f))
  ∧ (topology_kind f = None
     → visit_feature f = (None, {| get_feature := f; get_references := [] |})).
Proof.
  assert (Hinv : topology_kind f = None
                 → Forall (λ q, ¬ is_topological_property q) (properties f))
    by apply visit_properties_None_inv.
  split; [split; [exact Hinv|] | intros Hnone; apply Hinv in Hnone];
    [intros Hnone|]; unfold topology_kind, visit_feature;
    by rewrite visit_properties_none.
Qed.

(** ** The topology type and the references go together *)






(** ** The period in force *)

Lemma visit_time_windows_all_time ws self :
  ws ≠ [] → current_time_period (foldl visit_time_window self ws) = ALL_TIME.
Proof.
  induction ws as [|w ws IH] using rev_ind; [done|]. intros _.
  by rewrite foldl_app.
Qed.

(** X3: the period in force is restored: a visit that starts under "all
    time" ends under "all time", whatever value is visited and however
    deeply aggregates are nested in it, so a reference recorded after an
    aggregate never inherits the period of one of its windows. *)
Theorem period_in_force_is_restored property_value self :
  current_time_period self = ALL_TIME →
  current_time_period (accept_visitor property_value self) = ALL_TIME.
Proof.
  revert self.
  induction property_value as
    [value IH|value_type ws IH|sections|sections|sections interiors|b e|]
    using PropertyValue_nested_ind; intros self Hself; try done.
  - by apply IH.
  - rewrite accept_visitor_piecewise.
    destruct (is_topological_type value_type); [|done].
    destruct ws as [|w [|w' ws]]; [done | |].
    + apply Forall_cons_1 in IH as [IH _]. by apply IH.
    + by apply visit_time_windows_all_time.
Qed.

Lemma period_in_force_is_restored_witness :
  current_time_period
    (accept_visitor
       (PiecewiseAggregation GpmlTopologicalLine
          [ TimeWindow 10 5 (TopologicalLine ["R1"]);
            TimeWindow 5 0
              (PiecewiseAggregation GpmlTopologicalLine
                 [ TimeWindow 3 2 (TopologicalLine ["R2"]) ]) ])
       fresh_visitor)
  = ALL_TIME.
Proof. apply period_in_force_is_restored. reflexivity. Defined.

(** ** What a visit records *)

Lemma add_all_list_to_set xs (s : gset string) :
  add_all xs s = s ∪ list_to_set xs.
Proof.
  apply set_eq. intros x.
  rewrite elem_of_add_all, elem_of_union, elem_of_list_to_set. done.
Qed.

(** X4: visiting a topological network appends exactly one reference, under
    the period in force, whose ids are those of the boundary sections and
    of the interiors together, as a set: repeated sections and their order
    leave no trace; the references recorded before are kept, and the kind
    becomes Network whatever it was. *)
Theorem network_visit_records_boundary_and_interiors
    boundary_sections interiors self :
  accept_visitor (TopologicalNetwork boundary_sections interiors) self
  = {| topology_type := Some GpmlTopologicalNetwork;
       references :=
         references self
         ++ [(current_time_period self,
              list_to_set (boundary_sections ++ interiors))];
       current_time_period := current_time_period self |}.
Proof.
  simpl. unfold visit_gpml_topological_network, record_reference.
  do 3 f_equal. rewrite !add_all_list_to_set, list_to_set_app_L.
  by rewrite (left_id_L ∅ (∪)).
Qed.

(** X5: the ids a topological reference holds are the ids of all its
    entries taken together, whatever the periods of the entries; a
    reference without entries holds none. *)
Theorem referenced_feature_ids_union r :
  get_referenced_feature_ids r = ⋃ (snd <$> get_references r).
Proof.
  apply set_eq. intros x.
  rewrite elem_of_get_referenced_feature_ids, elem_of_union_list.
  setoid_rewrite list_elem_of_fmap. naive_solver.
Qed.

(** * Further properties of the filter *)

(** ** The dictionary of lines *)

Lemma topologies_of_lines_last l (k : string) :
  line_references (topologies_of l) !! k
  = topological_reference
      <$> last (filter (λ f, is_line f ∧ get_feature_id f = k) l).
Proof.
  induction l as [|f l IH] using rev_ind.
  - cbn. by rewrite lookup_empty.
  - rewrite topologies_of_snoc, find_topology_lines.
    rewrite filter_app, filter_cons, filter_nil.
    case_decide as Hline.
    + destruct (decide (get_feature_id f = k)) as [<-|Hne].
      * rewrite lookup_insert_eq, decide_True by done. by rewrite last_snoc.
      * rewrite lookup_insert_ne by done.
        rewrite decide_False by tauto. by rewrite app_nil_r.
    + rewrite decide_False by tauto. by rewrite app_nil_r.
Qed.

Lemma find_topologies_lines_last fcs (k : string) :
  line_references (find_topologies fcs) !! k
  = topological_reference <$> last_line_with_id fcs k.
Proof. rewrite find_topologies_flat. apply topologies_of_lines_last. Qed.

(** X6: after the first pass the dictionary of lines holds, at a feature
    id, the reference of the last Line feature of the input carrying that
    id (an earlier Line with the same id is overwritten), and it has no
    entry at an id that no Line carries, be it the id of a polygon, of a
    regular feature or of no feature at all. *)
Theorem line_dictionary_holds_last_line fcs (k : FeatureId) :
  topological_line_references (find_topologies fcs) !! k
  = topological_reference <$> last_line_with_id fcs k
  ∧ (is_Some (topological_line_references (find_topologies fcs) !! k)
     ↔ ∃ l, l ∈ all_features fcs ∧ is_line l ∧ get_feature_id l = k).
Proof.
  split; [apply find_topologies_lines_last|].
  rewrite find_topologies_lines_last, fmap_is_Some.
  unfold last_line_with_id. rewrite last_is_Some. split.
  - destruct (filter _ (all_features fcs)) as [|l ls] eqn:E; [done|].
    intros _. exists l.
    assert (Hl : l ∈ filter (λ f, is_line f ∧ get_feature_id f = k)
                        (all_features fcs)) by (rewrite E; left).
    apply list_elem_of_filter in Hl. tauto.
  - intros (l & Hl & Hline & Hk) Hnil.
    assert (Hin : l ∈ filter (λ f, is_line f ∧ get_feature_id f = k)
                         (all_features fcs))
      by (by apply list_elem_of_filter).
    rewrite Hnil in Hin. by apply elem_of_nil in Hin.
Qed.

(** ** Survival on every input *)

(** X7: on every input, also one in which feature ids repeat, a feature
    survives exactly when its id is the id of a polygon or network, or is
    referenced by one, or is referenced by a Line that is the last to
    carry an id that a polygon or network references. *)
Theorem survival_on_every_input fcs flag i f :
  in_collection fcs i f →
  survives fcs flag i f
  ↔ get_feature_id f ∈ polygon_and_network_ids fcs
    ∨ get_feature_id f ∈ directly_referenced_ids fcs
    ∨ ∃ k l, k ∈ directly_referenced_ids fcs
             ∧ last_line_with_id fcs k = Some l
             ∧ get_feature_id f ∈ referenced_ids l.
Proof.
  intros Hin. rewrite survives_iff by done.
  rewrite elem_of_feature_ids_to_keep.
  setoid_rewrite find_topologies_lines_last.
  setoid_rewrite fmap_Some. unfold referenced_ids. naive_solver.
Qed.

Lemma survival_on_every_input_witness :
  survives Scenario.duplicate_lines false 0 (Scenario.regular "R2")
  ↔ "R2" ∈ polygon_and_network_ids Scenario.duplicate_lines
    ∨ "R2" ∈ directly_referenced_ids Scenario.duplicate_lines
    ∨ ∃ k l, k ∈ directly_referenced_ids Scenario.duplicate_lines
             ∧ last_line_with_id Scenario.duplicate_lines k = Some l
             ∧ "R2" ∈ referenced_ids l.
Proof.
  apply (survival_on_every_input Scenario.duplicate_lines false 0
           (Scenario.regular "R2")).
  eexists. split; [reflexivity|].
  do 4 apply list_elem_of_further. apply list_elem_of_here.
Defined.

(** X8: nothing survives without cause, on any input: a feature of a
    returned collection stands in the input collection at the same place
    in the list, and its id is in the keep-set of the specification. *)
Theorem survivor_is_reachable fcs flag i f :
  survives fcs flag i f →
  in_collection fcs i f ∧ get_feature_id f ∈ two_hop_keep_set fcs.
Proof.
  unfold survives. rewrite remove_features_filter, list_lookup_fmap.
  intros (out & Hout & Hf).
  destruct (fcs !! i) as [fc|] eqn:Hfc; [|done].
  injection Hout as <-. apply list_elem_of_filter in Hf as [Hkeep Hf].
  split; [by exists fc|]. by apply feature_ids_to_keep_subseteq.
Qed.

Lemma survivor_is_reachable_witness :
  in_collection Scenario.collections 1 Scenario.L
  ∧ get_feature_id Scenario.L ∈ two_hop_keep_set Scenario.collections.
Proof.
  apply (survivor_is_reachable Scenario.collections false).
  apply survives_iff; [|by_evaluation].
  eexists. split; [reflexivity|]. apply list_elem_of_here.
Defined.

(** ** An input without polygons and networks *)

Lemma filter_empty_keep (keep : gset string) (fc : list Feature) :
  keep = ∅ → filter (λ f, get_feature_id f ∈ keep) fc = [].
Proof.
  intros ->. induction fc as [|f fc IH]; [done|].
  rewrite filter_cons, decide_False by set_solver. exact IH.
Qed.

(** X9: when no feature of the input is a polygon or a network, every
    returned collection is empty: the Lines and the regular features are
    all removed, whatever the Lines reference. *)
Theorem no_polygon_or_network_removes_everything fcs flag :
  Forall (λ f, ¬ is_polygon_or_network f) (all_features fcs) →
  remove_features_not_referenced_by_topologies fcs flag = map (λ _, []) fcs.
Proof.
  intros Hnone. rewrite Forall_forall in Hnone.
  assert (Hkeep : feature_ids_to_keep fcs = ∅).
  { apply set_eq. intros x. split; [|set_solver].
    rewrite elem_of_feature_ids_to_keep.
    intros [H|[H|(k & r & H & _)]];
      [apply elem_of_polygon_and_network_ids in H as (p & Hp & Hpn & _)
      |apply elem_of_directly_referenced_ids in H as (p & Hp & Hpn & _)..];
      by destruct (Hnone p Hp). }
  rewrite remove_features_filter.
  apply map_ext. intros fc. by apply filter_empty_keep.
Qed.

Lemma no_polygon_or_network_removes_everything_witness :
  remove_features_not_referenced_by_topologies
    [ [Scenario.L; Scenario.regular "R2"]; []; [Scenario.regular "R3"] ] false
  = [ []; []; [] ].
Proof.
  apply (no_polygon_or_network_removes_everything
           [ [Scenario.L; Scenario.regular "R2"]; [];
             [Scenario.regular "R3"] ] false).
  repeat constructor; intros [H|H]; discriminate H.
Defined.

(** ** Larger inputs, reordered inputs *)

Lemma directly_referenced_ids_mono A B :
  all_features A ⊆ all_features B →
  directly_referenced_ids A ⊆ directly_referenced_ids B.
Proof.
  intros Hsub x. rewrite !elem_of_directly_referenced_ids.
  intros (p & Hp & ? & ?). exists p. split; [by apply Hsub | done].
Qed.

Lemma two_hop_keep_set_mono A B :
  all_features A ⊆ all_features B → two_hop_keep_set A ⊆ two_hop_keep_set B.
Proof.
  intros Hsub x. unfold two_hop_keep_set.
  pose proof (directly_referenced_ids_mono A B Hsub) as Hdir.
  rewrite !elem_of_union, !elem_of_polygon_and_network_ids,
    !elem_of_ids_referenced_via_lines.
  intros [[(p & Hp & ? & ?)|Hx]|(l & Hl & ? & Hk & ?)].
  - left; left. exists p. split; [by apply Hsub | done].
  - left; right. by apply Hdir.
  - right. exists l. split; [by apply Hsub|]. split; [done|].
    split; [by apply Hdir | done].
Qed.

Lemma feature_ids_to_keep_mono A B :
  unique_line_ids B → all_features A ⊆ all_features B →
  feature_ids_to_keep A ⊆ feature_ids_to_keep B.
Proof.
  intros Hu Hsub. rewrite (feature_ids_to_keep_two_hop B Hu).
  etransitivity; [apply feature_ids_to_keep_subseteq|].
  by apply two_hop_keep_set_mono.
Qed.

(** X10: handing the function more features never makes it keep less, as
    long as the Lines of the larger input have distinct ids: every id kept
    for an input is kept for any input that holds all its features. *)
Theorem more_features_keep_more A B :
  unique_line_ids (A ++ B) →
  feature_ids_to_keep A ⊆ feature_ids_to_keep (A ++ B)
  ∧ feature_ids_to_keep B ⊆ feature_ids_to_keep (A ++ B).
Proof.
  intros Hu. split; apply feature_ids_to_keep_mono; try done;
    unfold all_features; rewrite concat_app; intros f Hf;
    apply elem_of_app; auto.
Qed.

Lemma more_features_keep_more_witness :
  feature_ids_to_keep [ [Scenario.P; Scenario.regular "R1"] ]
    ⊆ feature_ids_to_keep Scenario.collections
  ∧ feature_ids_to_keep
      [ [Scenario.L; Scenario.regular "R2"; Scenario.regular "R3";
         Scenario.regular "R4"; Scenario.L2] ]
    ⊆ feature_ids_to_keep Scenario.collections.
Proof.
  apply (more_features_keep_more
           [ [Scenario.P; Scenario.regular "R1"] ]
           [ [Scenario.L; Scenario.regular "R2"; Scenario.regular "R3";
              Scenario.regular "R4"; Scenario.L2] ]).
  by_evaluation.
Defined.

(** X11: when the Lines of the input have distinct ids, the keep-set does
    not depend on the order of the features, nor on how they are spread
    over the collections: two inputs holding the same features, in any
    order and any grouping, have the same keep-set. *)
Theorem keep_set_independent_of_order A B :
  unique_line_ids A →
  all_features A ≡ₚ all_features B →
  feature_ids_to_keep A = feature_ids_to_keep B.
Proof.
  intros Hu Hperm.
  assert (Hu' : unique_line_ids B).
  { unfold unique_line_ids in *. by rewrite <- Hperm. }
  apply set_eq. intros x. split; apply feature_ids_to_keep_mono; try done;
    intros f; by rewrite Hperm.
Qed.

Lemma keep_set_independent_of_order_witness :
  feature_ids_to_keep Scenario.collections
  = feature_ids_to_keep
      [ [Scenario.L; Scenario.regular "R2"; Scenario.regular "R3";
         Scenario.regular "R4"; Scenario.L2; Scenario.P];
        [Scenario.regular "R1"] ].
Proof.
  apply keep_set_independent_of_order; [by_evaluation|].
  apply (app_Permutation_comm [Scenario.P; Scenario.regular "R1"]
           [Scenario.L; Scenario.regular "R2"; Scenario.regular "R3";
            Scenario.regular "R4"; Scenario.L2]
         : _ ≡ₚ [Scenario.L; Scenario.regular "R2"; Scenario.regular "R3";
                 Scenario.regular "R4"; Scenario.L2]
                ++ [Scenario.P; Scenario.regular "R1"]).
Defined.

(** ** What the keep-set depends on *)

(** X12: the keep-set depends on a feature through its id, its topology
    kind and the set of the ids it references, and through nothing else:
    two inputs whose features agree on these three, one by one in input
    order, have the same keep-set, whatever their other properties, the
    wrapping of their topological values and the order of their
    sections. *)
Theorem keep_set_depends_on_id_kind_and_references A B :
  Forall2 same_topology (all_features A) (all_features B) →
  feature_ids_to_keep A = feature_ids_to_keep B.
Proof.
  intros HAB. apply set_eq. intros x. split.
  - by apply feature_ids_to_keep_same_topology.
  - apply feature_ids_to_keep_same_topology, Forall2_flip.
    eapply Forall2_impl; [exact HAB|]. intros f g. apply same_topology_sym.
Qed.

Lemma keep_set_depends_on_id_kind_and_references_witness :
  feature_ids_to_keep
    [ [ Scenario.topological "P" (TopologicalPolygon ["L"; "R1"]);
        Scenario.L; Scenario.regular "R1" ] ]
  = feature_ids_to_keep
      [ [ {| get_feature_id := "P";
             properties :=
               [ {| get_name := "gml:validTime";
                    get_time_dependent_value := TimePeriodValue 100 0 |};
                 {| get_name := "gpml:boundary";
                    get_time_dependent_value :=
                      ConstantValue (TopologicalPolygon ["R1"; "L"; "L"]) |} ] |} ];
        [ Scenario.topological "L"
            (PiecewiseAggregation GpmlTopologicalLine
               [ TimeWindow 10 5 (TopologicalLine ["R3"; "R2"]) ]);
          {| get_feature_id := "R1"; properties := [] |} ] ].
Proof.
  apply keep_set_depends_on_id_kind_and_references.
  repeat constructor; by_evaluation.
Defined.

(** X13: filtering changes nothing of what is to be kept: the keep-set
    computed from the returned collections is the keep-set computed from
    the input. *)
Theorem keep_set_of_the_result fcs flag :
  feature_ids_to_keep (remove_features_not_referenced_by_topologies fcs flag)
  = feature_ids_to_keep fcs.
Proof. rewrite remove_features_filter. apply feature_ids_to_keep_filtered. Qed.

(** * The command line *)

Section main_properties.
Context {Files : Type} `{!Environment Files}.

Lemma IO_bind_unfold {A B} (k : A → IO Files B) (m : IO Files A) files :
  (m ≫= k) files
  = match m files with
    | (Some a, files) => k a files
    | (None, files) => (None, files)
    end.
Proof. done. Qed.

Lemma mapM_FeatureCollection names files :
  mapM FeatureCollection names files
  = (mapM (λ name, features_of_file name files) names, files).
Proof.
  induction names as [|name names IH]; [done|].
  cbn [mapM]. rewrite IO_bind_unfold. unfold FeatureCollection at 1.
  destruct (features_of_file name files) as [fc|]; [|done].
  rewrite IO_bind_unfold, IH. simpl.
  by destruct (mapM (λ name, features_of_file name files) names).
Qed.

Lemma write_feature_collections_zip args out n : ∀ i files,
  i + n = length out → length (input_filenames args) = length out →
  write_feature_collections args out (seq i n) files
  = write_all (zip (output_filename args <$> drop i (input_filenames args))
                   (drop i out)) files.
Proof.
  induction n as [|n IH]; intros i files Hi Hlen.
  - rewrite !drop_ge by lia. done.
  - destruct (lookup_lt_is_Some_2 out i) as [fc Hfc]; [lia|].
    destruct (lookup_lt_is_Some_2 (input_filenames args) i) as [name Hname];
      [lia|].
    rewrite (drop_S _ _ _ Hfc), (drop_S _ _ _ Hname).
    cbn [seq write_feature_collections fmap list_fmap zip zip_with write_all].
    rewrite IO_bind_unfold. unfold getitem at 1. rewrite Hfc.
    rewrite IO_bind_unfold. unfold getitem at 1. rewrite Hname.
    rewrite !IO_bind_unfold.
    destruct (write fc (output_filename args name) files) as [[[]|] files'];
      [|done].
    apply IH; lia.
Qed.

(** X14: [main] reads every input file before it writes any.  When one of
    them cannot be read it raises with the files as they were; otherwise
    it writes the result for the i-th input file under the output name of
    the i-th input file, in the order of the command line, up to the first
    write that raises.  The two lists it indexes have the same length, so
    no index is out of range. *)
Theorem main_reads_then_writes args files :
  main args files
  = match mapM (λ input_filename, features_of_file input_filename files)
            (input_filenames args) with
    | Some input_feature_collections =>
        write_all
          (zip (output_filename args <$> input_filenames args)
               (remove_features_not_referenced_by_topologies
                  input_feature_collections false))
          files
    | None => (None, files)
    end.
Proof.
  unfold main. rewrite IO_bind_unfold, mapM_FeatureCollection.
  destruct (mapM _ (input_filenames args)) as [fcs|] eqn:Hread; [|done].
  apply mapM_Some, Forall2_length in Hread. cbn zeta.
  rewrite write_feature_collections_zip; [done | done |].
  by rewrite remove_features_filter, length_map.
Qed.

(** X15: when one of the input files cannot be read, whichever its place
    on the command line, [main] raises before anything is written: the
    files are as they were, and the exit status is 1. *)
Theorem unreadable_input_writes_nothing args files input_filename :
  input_filename ∈ input_filenames args →
  features_of_file input_filename files = None →
  main args files = (None, files) ∧ exit_status args files = 1.
Proof.
  intros Hin Hnone.
  assert (Hrun : main args files = (None, files)).
  { unfold main. rewrite IO_bind_unfold, mapM_FeatureCollection.
    destruct (mapM _ (input_filenames args)) as [fcs|] eqn:Hread; [|done].
    apply mapM_Some in Hread.
    destruct (Forall2_elem_of_l _ _ _ _ Hread Hin) as (fc & _ & Hfc).
    congruence. }
  split; [done|]. unfold exit_status. by rewrite Hrun.
Qed.

Lemma main_success_inv args files files' :
  main args files = (Some (), files') →
  ∃ fcs,
    Forall2 (λ name fc, features_of_file name files = Some fc)
      (input_filenames args) fcs
    ∧ write_all
        (zip (output_filename args <$> input_filenames args)
             (remove_features_not_referenced_by_topologies fcs false))
        files
      = (Some (), files').
Proof.
  unfold main. rewrite IO_bind_unfold, mapM_FeatureCollection.
  destruct (mapM _ (input_filenames args)) as [fcs|] eqn:Hread; [|done].
  apply mapM_Some in Hread. pose proof (Forall2_length _ _ _ Hread) as Hlen.
  cbn zeta. rewrite write_feature_collections_zip;
    [| done | by rewrite remove_features_filter, length_map].
  intros Hrun. by exists fcs.
Qed.

(** ** What a run changes *)

Lemma write_all_frame named : ∀ files files' other,
  writing_touches_one_file →
  write_all named files = (Some (), files') →
  other ∉ named.*1 →
  features_of_file other files' = features_of_file other files.
Proof.
  induction named as [|[name fc] named IH]; intros files files' other Hone Hrun.
  - by injection Hrun as <-.
  - cbn [write_all] in Hrun. rewrite IO_bind_unfold in Hrun.
    destruct (write fc name files) as [[[]|] files1] eqn:Hw; [|done].
    rewrite fmap_cons, not_elem_of_cons. intros [Hne Hother].
    rewrite (IH files1 files' other Hone Hrun Hother). by eapply Hone.
Qed.

(** X16: a run that succeeds changes no file but its output files: a file
    whose name is not the output name of an input file reads afterwards as
    it did before.  With a prefix that makes the output names differ from
    the input names, the input files are left as they were. *)
Theorem main_touches_output_files_only args files files' filename :
  writing_touches_one_file →
  main args files = (Some (), files') →
  filename ∉ output_filename args <$> input_filenames args →
  features_of_file filename files' = features_of_file filename files.
Proof.
  intros Hone Hrun Hother.
  apply main_success_inv in Hrun as (fcs & Hread & Hrun).
  apply (write_all_frame _ _ _ _ Hone Hrun).
  rewrite fst_zip; [done|].
  rewrite remove_features_filter, !length_map.
  by rewrite (Forall2_length _ _ _ Hread).
Qed.

(** ** Several runs *)

Lemma write_all_reads named : ∀ files files',
  written_files_read_back → writing_touches_one_file →
  (∀ name fc fc', (name, fc) ∈ named → (name, fc') ∈ named → fc = fc') →
  write_all named files = (Some (), files') →
  (∀ name fc, (name, fc) ∈ named → features_of_file name files' = Some fc)
  ∧ (∀ other, other ∉ named.*1 →
       features_of_file other files' = features_of_file other files).
Proof.
  induction named as [|[name fc] named IH];
    intros files files' Hback Hone Hfun Hrun.
  - injection Hrun as <-.
    split; [intros ?? Hin; by apply elem_of_nil in Hin | done].
  - cbn [write_all] in Hrun. rewrite IO_bind_unfold in Hrun.
    destruct (write fc name files) as [[[]|] files1] eqn:Hw; [|done].
    destruct (IH files1 files' Hback Hone) as [IHin IHout]; [|done|].
    { intros n c c' ? ?. apply (Hfun n); by right. }
    split.
    + intros n c Hin.
      apply elem_of_cons in Hin as [[= -> ->]|Hin]; [|by apply IHin].
      destruct (decide (name ∈ named.*1)) as [Hdup|Hnew].
      * apply list_elem_of_fmap in Hdup as ([n c'] & -> & Hin). simpl.
        rewrite (Hfun n fc c'); [by apply IHin | left | by right].
      * rewrite IHout by done. by eapply Hback.
    + intros other Hother. rewrite fmap_cons, not_elem_of_cons in Hother.
      destruct Hother as [Hne Hother].
      rewrite IHout by done. by eapply Hone.
Qed.

Lemma remove_features_twice fcs flag flag' :
  remove_features_not_referenced_by_topologies
    (remove_features_not_referenced_by_topologies fcs flag) flag'
  = remove_features_not_referenced_by_topologies fcs flag.
Proof.
  rewrite (remove_features_filter fcs flag), remove_features_filter.
  rewrite feature_ids_to_keep_filtered, map_map.
  apply map_ext. intros fc. apply filter_absorb. tauto.
Qed.

(** X17: without an output prefix the clean-up of the files is idempotent:
    after a run that succeeded, a second run that succeeds leaves every
    file reading as the first run left it, also when the command line
    names a file more than once; provided a written file reads back as
    written and a write leaves the other files alone. *)
Theorem cleaning_in_place_twice args files files' files'' filename :
  written_files_read_back → writing_touches_one_file →
  output_filename_prefix args = None →
  main args files = (Some (), files') →
  main args files' = (Some (), files'') →
  features_of_file filename files'' = features_of_file filename files'.
Proof.
  intros Hback Hone Hprefix Hfirst Hsecond.
  assert (Hnames : output_filename args <$> input_filenames args
                   = input_filenames args).
  { unfold output_filename. rewrite Hprefix. apply list_fmap_id. }
  apply main_success_inv in Hfirst as (fcs & Hread & Hfirst).
  apply main_success_inv in Hsecond as (fcs' & Hread' & Hsecond).
  rewrite Hnames in Hfirst, Hsecond.
  set (out := remove_features_not_referenced_by_topologies fcs false) in *.
  assert (Hlen : length (input_filenames args) = length out).
  { unfold out. rewrite remove_features_filter, length_map.
    by eapply Forall2_length. }
  assert (Hfun : ∀ name fc fc',
            (name, fc) ∈ zip (input_filenames args) out →
            (name, fc') ∈ zip (input_filenames args) out → fc = fc').
  { assert (Hby_name : ∀ name fc,
              (name, fc) ∈ zip (input_filenames args) out →
              ∃ read, features_of_file name files = Some read
                      ∧ fc = filter (λ f, get_feature_id f
                                          ∈ feature_ids_to_keep fcs) read).
    { intros name fc Hin.
      apply elem_of_lookup_zip_with_1 in Hin
        as (i & name' & fc_i & [= <- <-] & Hname & Hfc).
      unfold out in Hfc.
      rewrite remove_features_filter, list_lookup_fmap in Hfc.
      destruct (fcs !! i) as [read|] eqn:Hi; [|done].
      injection Hfc as <-. exists read. split; [|done].
      by apply (Forall2_lookup_lr _ _ _ i name read Hread). }
    intros name fc fc' Hin Hin'.
    destruct (Hby_name _ _ Hin) as (read & Hr & ->).
    destruct (Hby_name _ _ Hin') as (read' & Hr' & ->). congruence. }
  destruct (write_all_reads _ _ _ Hback Hone Hfun Hfirst) as [Hin1 _].
  assert (fcs' = out) as ->.
  { apply (inj Some).
    rewrite <- (mapM_Some_2 _ _ _ Hread'). apply mapM_Some_2.
    apply Forall2_same_length_lookup_2; [done|].
    intros i name fc Hname Hfc. apply Hin1.
    by apply (elem_of_lookup_zip_with_2 pair _ _ name fc (name, fc) i). }
  unfold out in Hsecond. rewrite remove_features_twice in Hsecond.
  fold out in Hsecond.
  destruct (write_all_reads _ _ _ Hback Hone Hfun Hsecond) as [Hin2 Hout2].
  destruct (decide (filename ∈ input_filenames args)) as [Hin|Hnotin].
  - apply list_elem_of_lookup in Hin as [i Hi].
    destruct (lookup_lt_is_Some_2 out i) as [fc Hfc].
    { rewrite <- Hlen. by eapply lookup_lt_Some. }
    assert (Hzip : (filename, fc) ∈ zip (input_filenames args) out)
      by by apply (elem_of_lookup_zip_with_2 pair _ _ filename fc
                     (filename, fc) i).
    by rewrite (Hin1 _ _ Hzip), (Hin2 _ _ Hzip).
  - apply Hout2. rewrite fst_zip by lia. done.
Qed.

End main_properties.

(** ** The files of the scenario *)

#[local] Existing Instance Scenario.files_in_a_map.

Lemma map_files_read_back :
  written_files_read_back (Files := gmap string (list Feature)).
Proof. intros fc name files files' [= <-]. apply lookup_insert_eq. Qed.

Lemma map_files_touch_one_file :
  writing_touches_one_file (Files := gmap string (list Feature)).
Proof.
  intros fc name files files' other [= <-] Hne. by apply lookup_insert_ne.
Qed.

Lemma cleaning_in_place_twice_witness :
  let once := (main Scenario.in_place Scenario.files).2 in
  let twice := (main Scenario.in_place once).2 in
  features_of_file "b.gpml" twice = features_of_file "b.gpml" once.
Proof.
  intros once twice.
  apply (cleaning_in_place_twice Scenario.in_place Scenario.files once twice).
  - apply map_files_read_back.
  - apply map_files_touch_one_file.
  - reflexivity.
  - reflexivity.
  - reflexivity.
Defined.

Lemma main_touches_output_files_only_witness :
  features_of_file "b.gpml" (main Scenario.prefixed Scenario.files).2
  = features_of_file "b.gpml" Scenario.files.
Proof.
  apply (main_touches_output_files_only Scenario.prefixed).
  - apply map_files_touch_one_file.
  - reflexivity.
  - by_evaluation.
Defined.

Lemma unreadable_input_writes_nothing_witness :
  let args := {| output_filename_prefix := None;
                 input_filenames := ["a.gpml"; "missing.gpml"] |} in
  main args Scenario.files = (None, Scenario.files)
  ∧ exit_status args Scenario.files = 1.
Proof.
  intros args. apply (unreadable_input_writes_nothing args _ "missing.gpml").
  - apply list_elem_of_further, list_elem_of_here.
  - reflexivity.
Defined.

